(** * list_builder: the catalog builder of the apps repository

  A shallow embedding of [tools/list_builder.py]: the mirror cache
  ([refresh_all_caches], [init_cache], [git_repo_age], [refresh_cache]),
  the per-package entry construction ([build_app_dict]) and the three
  projections written by [build_catalog].

  Python values are embedded as a small dynamic [value] type, exceptions as
  a [result] type threaded through a state-and-error monad, the filesystem
  and the clock as an explicit [Disk], and everything the program prints,
  asks of git or writes as an explicit [Log]. *)

From Stdlib Require Import ZArith QArith List String Ascii Bool Lia.
From Stdlib Require Import DecimalString DecimalZ DecimalPos Sorted.
Import ListNotations.

Local Open Scope string_scope.
Local Open Scope Z_scope.

Set Implicit Arguments.
Set Warnings "-register-all".

(* ================================================================== *)
(** ** Python values and exceptions *)
(* ================================================================== *)

Module Py.

(** A Python [float]: a finite double is a rational number; TOML and JSON
    loaders can also produce the three special values. *)
Inductive pyfloat : Type :=
| Finite (q : Q)
| PosInf
| NegInf
| NaN.

(** What [toml.load] and [json.load] produce.  Table and object keys are
    always strings; a dict keeps its insertion order. *)
Inductive value : Type :=
| VNone
| VBool (b : bool)
| VInt (z : Z)
| VFloat (f : pyfloat)
| VStr (s : string)
| VList (l : list value)
| VDict (items : list (string * value)).

Definition dict : Type := list (string * value).

(** The exceptions the program can meet. *)
Inductive exn : Type :=
| KeyError (key : string)
| ValueError (msg : string)
| TypeError (msg : string)
| AttributeError (msg : string)
| AssertionError (msg : string)
| RuntimeError (msg : string)
| StopIteration
| FileNotFoundError (path : string)
| BadName (rev : string)
| GitCommandError (msg : string)
| OtherError (msg : string).

Inductive result (A : Type) : Type :=
| Ok (a : A)
| Raise (e : exn).
Arguments Ok {A} a.
Arguments Raise {A} e.

(** [str(e)], as used in the console reports. *)
Definition exn_str (e : exn) : string :=
  match e with
  | KeyError k => "'" ++ k ++ "'"
  | ValueError m | TypeError m | AttributeError m | AssertionError m
  | RuntimeError m | GitCommandError m | OtherError m => m
  | StopIteration => ""
  | FileNotFoundError p =>
      "[Errno 2] No such file or directory: '" ++ p ++ "'"
  | BadName r => "Ref '" ++ r ++ "' did not resolve to an object"
  end.

(** *** Dictionaries *)

Fixpoint dict_get (d : dict) (k : string) : option value :=
  match d with
  | [] => None
  | (k', v) :: d' => if String.eqb k' k then Some v else dict_get d' k
  end.

(** [d.get(k, default)] *)
Definition get_default (d : dict) (k : string) (default : value) : value :=
  match dict_get d k with
  | Some v => v
  | None => default
  end.

(** [d[k]] on a dict *)
Definition getitem (d : dict) (k : string) : result value :=
  match dict_get d k with
  | Some v => Ok v
  | None => Raise (KeyError k)
  end.

(** [k in d] *)
Definition dict_mem (d : dict) (k : string) : bool :=
  match dict_get d k with
  | Some _ => true
  | None => false
  end.

(** [d[k] = v]: an existing key keeps its place, a new one goes last. *)
Fixpoint dict_set (d : dict) (k : string) (v : value) : dict :=
  match d with
  | [] => [(k, v)]
  | (k', v') :: d' =>
      if String.eqb k' k then (k', v) :: d' else (k', v') :: dict_set d' k v
  end.

(** [del d[k]] (used only under an [in] test) *)
Fixpoint dict_del (d : dict) (k : string) : dict :=
  match d with
  | [] => []
  | (k', v') :: d' =>
      if String.eqb k' k then dict_del d' k else (k', v') :: dict_del d' k
  end.

(** [v[k]] on an arbitrary value with a string subscript. *)
Definition subscript (v : value) (k : string) : result value :=
  match v with
  | VDict d => getitem d k
  | VStr _ => Raise (TypeError "string indices must be integers")
  | VList _ => Raise (TypeError "list indices must be integers or slices")
  | _ => Raise (TypeError "object is not subscriptable")
  end.

(** Lists and dicts are unhashable. *)
Definition hashable (v : value) : bool :=
  match v with
  | VList _ | VDict _ => false
  | _ => true
  end.

(** *** Strings *)

Definition lower_ascii (c : ascii) : ascii :=
  let n := nat_of_ascii c in
  if andb (Nat.leb 65 n) (Nat.leb n 90) then ascii_of_nat (n + 32) else c.

(** [s.lower()] on ASCII text *)
Fixpoint lower (s : string) : string :=
  match s with
  | EmptyString => EmptyString
  | String c s' => String (lower_ascii c) (lower s')
  end.

Definition is_space (c : ascii) : bool :=
  let n := nat_of_ascii c in
  orb (Nat.eqb n 32)
      (orb (andb (Nat.leb 9 n) (Nat.leb n 13)) (andb (Nat.leb 28 n) (Nat.leb n 31))).

Fixpoint lstrip (s : string) : string :=
  match s with
  | EmptyString => EmptyString
  | String c s' => if is_space c then lstrip s' else s
  end.

Fixpoint rstrip (s : string) : string :=
  match s with
  | EmptyString => EmptyString
  | String c s' =>
      match rstrip s' with
      | EmptyString => if is_space c then EmptyString else String c EmptyString
      | r => String c r
      end
  end.

(** [s.strip()] *)
Definition strip (s : string) : string := rstrip (lstrip s).

Definition newline : ascii := ascii_of_nat 10.

(** [s.split("\n")[0]]: the text before the first line feed. *)
Fixpoint first_line (s : string) : string :=
  match s with
  | EmptyString => EmptyString
  | String c s' =>
      if Ascii.eqb c newline then EmptyString else String c (first_line s')
  end.

(** ["\n".join(l)] *)
Fixpoint join_lines (l : list string) : string :=
  match l with
  | [] => EmptyString
  | [x] => x
  | x :: l' => x ++ String newline (join_lines l')
  end.

(** [pat in s] *)
Fixpoint contains (pat s : string) : bool :=
  if String.prefix pat s then true
  else match s with
       | EmptyString => false
       | String _ s' => contains pat s'
       end.

(** [int(s)] on ASCII text: surrounding white space, an optional sign and
    decimal digits ([int("")] raises).  Digit-group underscores are not
    covered; git never prints them. *)
Definition int_of_str (s : string) : result Z :=
  let t := strip s in
  let parsed :=
    match t with
    | String "+" t' => option_map Z.of_uint (NilZero.uint_of_string t')
    | _ => option_map Z.of_int (NilZero.int_of_string t)
    end in
  match parsed with
  | Some z => Ok z
  | None =>
      Raise (ValueError ("invalid literal for int() with base 10: '" ++ s ++ "'"))
  end.

(** [str(z)] for an integer *)
Definition str_of_int (z : Z) : string := NilZero.string_of_int (Z.to_int z).

(** [int(x)] on a float: truncation towards zero. *)
Definition int_of_Q (q : Q) : Z := Z.quot (Qnum q) (Zpos (Qden q)).

End Py.
Import Py.

(* ================================================================== *)
(** ** The mirrors on disk, as git shows them *)
(* ================================================================== *)

Module Git.

(** A commit of a mirror: its two dates (seconds since the epoch) and, for
    each path it changes, the lines its diff adds or removes. *)
Record Commit : Type := mkCommit {
  hexsha : string;
  authored_date : Z;
  committed_date : Z;
  changes : list (string * list string)
}.

(** One clone under [.apps_cache/], which [Repo(...)] opens.  [fetch_head]
    is the modification time of [.git/FETCH_HEAD] when that file exists;
    [rev_list_all] is the history of the refs, in the order
    [git rev-list --all] lists it; [unreachable] are the commits the object
    store still holds that no ref reaches any more (a forced fetch followed
    by a hard reset leaves the old tip there); [first_parent_log] is the
    first-parent chain of the checked-out commit, newest first; [refs] are
    the named revisions; the two manifests are what loading the file of the
    working tree gives, when the file exists. *)
Record Mirror : Type := mkMirror {
  fetch_head : option Q;
  rev_list_all : list Commit;
  unreachable : list Commit;
  first_parent_log : list Commit;
  refs : list (string * Commit);
  manifest_toml : option (result value);
  manifest_json : option (result value)
}.

(** The commits of the object store. *)
Definition object_store (m : Mirror) : list Commit :=
  rev_list_all m ++ unreachable m.

(** A pathspec names a file, or a directory and everything below it. *)
Definition ends_with_slash (s : string) : bool :=
  match String.length s with
  | O => false
  | S n => match String.get n s with
           | Some c => Ascii.eqb c "/"
           | None => false
           end
  end.

Definition pathspec_match (spec path : string) : bool :=
  if ends_with_slash spec then String.prefix spec path
  else orb (String.eqb spec path) (String.prefix (spec ++ "/") path).

(** The commit changes a path selected by one of the pathspecs. *)
Definition touches (paths : list string) (c : Commit) : bool :=
  existsb (fun ch => existsb (fun p => pathspec_match p (fst ch)) paths)
          (changes c).

(** [-G pat -- paths]: under the pathspecs, a changed line matches the
    pattern (here always a literal word). *)
Definition diff_matches (pat : string) (paths : list string) (c : Commit)
  : bool :=
  existsb (fun ch =>
             andb (existsb (fun p => pathspec_match p (fst ch)) paths)
                  (existsb (contains pat) (snd ch)))
          (changes c).

(** [repo.iter_commits(paths=..., full_history=True, all=True)] *)
Definition iter_commits (m : Mirror) (paths : list string) : list Commit :=
  filter (touches paths) (rev_list_all m).

(** [repo.git.log("-G", pat, "--first-parent", "--reverse", "--date=unix",
    "--format=%cd", "--", paths...)]: the committer dates of the matching
    commits of the first-parent chain, oldest first, one per line. *)
Definition log_G_dates (m : Mirror) (pat : string) (paths : list string)
  : result string :=
  match first_parent_log m with
  | [] => Raise (GitCommandError "your current branch does not have any commits yet")
  | _ =>
      Ok (join_lines
            (map (fun c => str_of_int (committed_date c))
                 (rev (filter (diff_matches pat paths) (first_parent_log m)))))
  end.

Definition is_hex (c : ascii) : bool :=
  let n := nat_of_ascii c in
  orb (andb (Nat.leb 48 n) (Nat.leb n 57))
      (orb (andb (Nat.leb 97 n) (Nat.leb n 102))
           (andb (Nat.leb 65 n) (Nat.leb n 70))).

Fixpoint all_hex (s : string) : bool :=
  match s with
  | EmptyString => true
  | String c s' => andb (is_hex c) (all_hex s')
  end.

(** Forty hexadecimal digits: the text is a full object name. *)
Definition full_object_name (rev : string) : bool :=
  andb (Nat.eqb (String.length rev) 40) (all_hex rev).

(** [repo.commit(rev)]: a full object name is asked of the object store,
    whether or not a ref still reaches the object, and an unknown one is a
    [ValueError]; any other text is taken for the name of a ref, and an
    unknown one is a [BadName].  Abbreviated object names are not
    covered. *)
Definition commit (m : Mirror) (rev : string) : result Commit :=
  if full_object_name rev then
    match find (fun c => String.eqb (hexsha c) rev) (object_store m) with
    | Some c => Ok c
    | None => Raise (ValueError ("SHA " ++ rev ++ " could not be resolved"))
    end
  else
    match find (fun r => String.eqb (fst r) rev) (refs m) with
    | Some r => Ok (snd r)
    | None => Raise (BadName rev)
    end.

End Git.
Import Git.

(* ================================================================== *)
(** ** The machine: disk, clock, log, and the monad of the program *)
(* ================================================================== *)

(** The operations the program asks of git that can change the disk or
    reach the network.  Their outcome is not the program's to decide: it is
    given by an oracle over the disk (section variable [git] below). *)
Inductive GitCall : Type :=
| CloneFrom (url : value) (app : string) (depth : Z) (branch : value)
| RepoOpen (app : string)
| RemoteOrigin (app : string)
| RemoteSetUrl (app : string) (url : value)
| ActiveBranchDiffers (app : string) (branch : value)
| Branches (app : string)
| CheckoutForce (app : string) (branch : value)
| RemoteSetBranchesAdd (app : string) (branch : value)
| FetchBranchToBranch (app : string) (branch : value)
| FetchForce (app : string) (branch : value)
| ResetHardOrigin (app : string) (branch : value).

Definition answer (c : GitCall) : Type :=
  match c with
  | ActiveBranchDiffers _ _ => bool
  | Branches _ => list string
  | _ => unit
  end.

(** The calls that talk to the remote. *)
Definition is_network (c : GitCall) : bool :=
  match c with
  | CloneFrom _ _ _ _ | FetchBranchToBranch _ _ | FetchForce _ _ => true
  | _ => false
  end.

(** What persists between statements: the clock ([time.time()]), the clones
    under [.apps_cache/] by folder name, and the digest of each logo file
    that exists under [logos/]. *)
Record Disk : Type := mkDisk {
  clock : Q;
  cache : string -> option Mirror;
  logos : string -> option string
}.

(** One output document, as handed to [json.dumps]. *)
Record Document : Type := mkDocument {
  doc_apps : list (value * dict);
  doc_categories : value;
  doc_antifeatures : option value
}.

(** What the run leaves behind, each list in the order of the events: the
    calls to git, the lines of [error], the documents written and the logos
    copied. *)
Record Log : Type := mkLog {
  git_calls : list GitCall;
  console : list string;
  builds : list (string * Document);
  logo_copies : list (string * string)
}.

Record State : Type := mkState {
  disk : Disk;
  log : Log
}.

Definition empty_log : Log := mkLog [] [] [] [].

Definition M (A : Type) : Type := State -> result A * State.

Definition ret {A} (a : A) : M A := fun s => (Ok a, s).

Definition bind {A B} (m : M A) (k : A -> M B) : M B :=
  fun s => match m s with
           | (Ok a, s') => k a s'
           | (Raise e, s') => (Raise e, s')
           end.

Definition raise {A} (e : exn) : M A := fun s => (Raise e, s).

Definition lift {A} (r : result A) : M A := fun s => (r, s).

(** [try: body except: handler] *)
Definition try_except {A} (body : M A) (handler : exn -> M A) : M A :=
  fun s => match body s with
           | (Ok a, s') => (Ok a, s')
           | (Raise e, s') => handler e s'
           end.

Declare Scope prog_scope.
Delimit Scope prog_scope with prog.
Notation "x <- c1 ;; c2" := (bind c1 (fun x => c2))
  (at level 61, c1 at next level, right associativity) : prog_scope.
Notation "c1 ;;; c2" := (bind c1 (fun _ => c2))
  (at level 61, right associativity) : prog_scope.
Local Open Scope prog_scope.

Definition get_disk : M Disk := fun s => (Ok (disk s), s).

Definition modify_log (f : Log -> Log) : M unit :=
  fun s => (Ok tt, mkState (disk s) (f (log s))).

(** [print] *)
Definition print (line : string) : M unit :=
  modify_log (fun l => mkLog (git_calls l) (console l ++ [line]) (builds l)
                             (logo_copies l)).

(** [error(msg)]: the console line; the notification is best effort. *)
Definition error (msg : string) : M unit :=
  print ("[Applist builder error] " ++ msg).

Definition record_call (c : GitCall) : M unit :=
  modify_log (fun l => mkLog (git_calls l ++ [c]) (console l) (builds l)
                             (logo_copies l)).

Definition record_build (path : string) (d : Document) : M unit :=
  modify_log (fun l => mkLog (git_calls l) (console l) (builds l ++ [(path, d)])
                             (logo_copies l)).

Definition record_logo_copy (appid digest : string) : M unit :=
  modify_log (fun l => mkLog (git_calls l) (console l) (builds l)
                             (logo_copies l ++ [(appid, digest)])).

(** [sorted(catalog.items())]: by key; the keys of a dict are distinct. *)
Fixpoint insert_item {A} (x : string * A) (l : list (string * A))
  : list (string * A) :=
  match l with
  | [] => [x]
  | y :: l' => if String.leb (fst x) (fst y) then x :: l else y :: insert_item x l'
  end.

Fixpoint sorted_items {A} (l : list (string * A)) : list (string * A) :=
  match l with
  | [] => []
  | x :: l' => insert_item x (sorted_items l')
  end.

(** The exception of [x / 0]. *)
Definition ZeroDivisionError : exn := OtherError "division by zero".

(** A [for] loop over [progressbar(it, ...)] (lines 62-79).  The generator
    first draws the empty bar, [show(0)], which divides by [len(it)]: with
    no item it raises before the loop body runs; otherwise it hands the
    items over in order.  What it draws is kept out of the log. *)
Definition for_progressbar {A B} (it : list (string * A))
  (loop : list (string * A) -> M B) : M B :=
  match it with
  | [] => raise ZeroDivisionError
  | _ => loop it
  end.

(* ================================================================== *)
(** ** The program *)
(* ================================================================== *)

Section Program.

(** How git answers each call on a given disk, and what it leaves there. *)
Variable git : forall c : GitCall, Disk -> result (answer c) * Disk.

(** The order in which this process iterates over a set: Python fixes the
    elements, not their order, which follows the string hashes the
    interpreter draws at start-up. *)
Variable set_order : list value -> list value.

(** [float(s)] on stripped, non-empty text; [None] when the text is no
    float literal. *)
Variable float_of_text : string -> option pyfloat.

(** [repr] of a float, a list or a dict. *)
Variable py_repr : value -> string.

(** The converter imported from [packaging_v2], of which the spec says it is
    a function from a v1 manifest to a v2 manifest. *)
Variable convert_v1_manifest_to_v2_for_catalog : dict -> result dict.

(** The two taxonomy files and [apps.toml], as loaded. *)
Variable categories : value.
Variable antifeatures : value.
Variable apps_toml : list (string * dict).

Definition call (c : GitCall) : M (answer c) :=
  record_call c ;;;
  fun s => let (r, d') := git c (disk s) in (r, mkState d' (log s)).

(** *** Loading the catalog *)

Definition is_notworking (infos : dict) : bool :=
  match dict_get infos "state" with
  | Some (VStr s) => String.eqb s "notworking"
  | _ => false
  end.

(** [{app: infos for app, infos in catalog.items()
      if infos.get("state") != "notworking"}] *)
Definition catalog : list (string * dict) :=
  filter (fun item => negb (is_notworking (snd item))) apps_toml.

(** *** App git clones cache management *)

Definition app_cache_folder_exists (app : string) : M bool :=
  d <- get_disk ;;
  ret (match cache d app with Some _ => true | None => false end).

Definition git_depths (state : value) : result Z :=
  if hashable state then
    Ok (match state with
        | VStr s => if String.eqb s "notworking" then 5
                    else if String.eqb s "inprogress" then 20
                    else 40
        | _ => 40
        end)
  else Raise (TypeError "unhashable type").

Definition init_cache (app : string) (infos : dict) : M unit :=
  url <- lift (getitem infos "url") ;;
  state <- lift (getitem infos "state") ;;
  depth <- lift (git_depths state) ;;
  call (CloneFrom url app depth (get_default infos "branch" (VStr "master"))).

(** [False] is [None]; an age is [int(time.time() - st_mtime)].  Both
    times are taken as exact numbers of seconds. *)
Definition repo_age (d : Disk) (app : string) : option Z :=
  match cache d app with
  | Some m =>
      match fetch_head m with
      | Some mtime => Some (int_of_Q (clock d - mtime))
      | None => None
      end
  | None => None
  end.

(** The exact age of [.git/FETCH_HEAD], in seconds.  The program takes it
    for the age of the last successful fetch; git also rewrites the file
    when a fetch fails. *)
Definition fetch_head_age (d : Disk) (app : string) : option Q :=
  match cache d app with
  | Some m =>
      match fetch_head m with
      | Some mtime => Some (clock d - mtime)%Q
      | None => None
      end
  | None => None
  end.

Definition git_repo_age (app : string) : M (option Z) :=
  d <- get_disk ;; ret (repo_age d app).

(** [age is not False and age < limit] *)
Definition younger_than (age : option Z) (limit : Z) : bool :=
  match age with
  | Some a => a <? limit
  | None => false
  end.

Definition branch_in (branch : value) (all_branches : list string) : bool :=
  match branch with
  | VStr b => existsb (String.eqb b) all_branches
  | _ => false
  end.

(** The body of the [try] of [refresh_cache]. *)
Definition refresh_sequence (app : string) (infos : dict) : M unit :=
  call (RepoOpen app) ;;;
  call (RemoteOrigin app) ;;;
  url <- lift (getitem infos "url") ;;
  call (RemoteSetUrl app url) ;;;
  let branch := get_default infos "branch" (VStr "master") in
  differs <- call (ActiveBranchDiffers app branch) ;;
  (if differs : bool then
     all_branches <- call (Branches app) ;;
     if branch_in branch all_branches
     then call (CheckoutForce app branch)
     else call (RemoteSetBranchesAdd app branch) ;;;
          call (FetchBranchToBranch app branch)
   else ret tt) ;;;
  call (FetchForce app branch) ;;;
  call (ResetHardOrigin app branch).

Definition refresh_cache (app : string) (infos : dict) : M unit :=
  age <- git_repo_age app ;;
  if younger_than age 3600 then ret tt
  else
    try_except (refresh_sequence app infos)
      (fun e =>
         age <- git_repo_age app ;;
         if younger_than age (24 * 3600) then ret tt else raise e).

(** The body of the loop of [refresh_all_caches], item after item. *)
Fixpoint refresh_items (items : list (string * dict)) : M unit :=
  match items with
  | [] => ret tt
  | (app, infos) :: rest =>
      let app := lower app in
      present <- app_cache_folder_exists app ;;
      (if negb present then
         try_except (init_cache app infos)
           (fun e => error ("Failed to init cache for " ++ app))
       else
         try_except (refresh_cache app infos)
           (fun e =>
              error ("Failed to not refresh cache for " ++ app ++ ": "
                       ++ exn_str e) ;;;
              raise e)) ;;;
      refresh_items rest
  end.

Definition refresh_all_caches : M unit :=
  for_progressbar (sorted_items catalog) refresh_items.

(** *** Actual list build management *)

(** [str(v)] *)
Definition str_of_value (v : value) : string :=
  match v with
  | VStr s => s
  | VInt z => str_of_int z
  | VBool true => "True"
  | VBool false => "False"
  | VNone => "None"
  | _ => py_repr v
  end.

(** [v == "text"] *)
Definition eq_str (v : value) (text : string) : bool :=
  match v with
  | VStr s => String.eqb s text
  | _ => false
  end.

(** [v.get(k, default)], for a value that may not be a dict. *)
Definition value_get (v : value) (k : string) (default : value)
  : result value :=
  match v with
  | VDict d => Ok (get_default d k default)
  | _ => Raise (AttributeError "object has no attribute 'get'")
  end.

(** [list(v.keys())] *)
Definition value_keys (v : value) : result (list value) :=
  match v with
  | VDict d => Ok (map (fun kv => VStr (fst kv)) d)
  | _ => Raise (AttributeError "object has no attribute 'keys'")
  end.

(** [l + v] for a list [l] *)
Definition list_add (l : list value) (v : value) : result (list value) :=
  match v with
  | VList l' => Ok (l ++ l')%list
  | _ => Raise (TypeError "can only concatenate list to list")
  end.

(** [list(set(l))] *)
Definition list_of_set (l : list value) : result (list value) :=
  if forallb hashable l then Ok (set_order l)
  else Raise (TypeError "unhashable type").

(** ["text" in v] *)
Definition str_in (text : string) (v : value) : result bool :=
  match v with
  | VList l => Ok (existsb (fun x => eq_str x text) l)
  | VDict d => Ok (dict_mem d text)
  | VStr s => Ok (contains text s)
  | _ => Raise (TypeError "argument is not iterable")
  end.

Definition relevant_files : list string :=
  [ "manifest.json"; "manifest.toml"; "config_panel.toml";
    "hooks/"; "scripts/"; "conf/"; "sources/" ].

(** [manifest.toml] if the working tree has it, else [manifest.json]. *)
Definition load_manifest (app : string) (m : Mirror) : result value :=
  match manifest_toml m with
  | Some r => r
  | None =>
      match manifest_json m with
      | Some r => r
      | None => Raise (FileNotFoundError (".apps_cache/" ++ app ++ "/manifest.json"))
      end
  end.

(** Lines 289-294: the date the app was added. *)
Definition added_in_catalog (m : Mirror) : result Z :=
  match log_G_dates m "cinny" ["apps.json"; "apps.toml"] with
  | Ok commit_timestamps => int_of_str (first_line commit_timestamps)
  | Raise e => Raise e
  end.

(** Lines 296-318: the value left in [infos["revision"]]. *)
Definition resolve_revision (m : Mirror) (infos : dict) : result value :=
  let revision := get_default infos "revision" (VStr "HEAD") in
  if eq_str revision "HEAD" then
    match iter_commits m relevant_files with
    | c :: _ => Ok (VStr (hexsha c))
    | [] => Raise StopIteration
    end
  else
    match commit m (str_of_value revision) with
    | Ok _ => Ok revision
    | Raise (ValueError _) =>
        Raise (RuntimeError ("Revision ain't in history ? " ++ str_of_value revision))
    | Raise e => Raise e
    end.

Definition rbind {A B} (r : result A) (k : A -> result B) : result B :=
  match r with
  | Ok a => k a
  | Raise e => Raise e
  end.

(** The entry of one app, read from its mirror. *)
Definition app_dict_of_mirror (app : string) (infos : dict) (m : Mirror)
  : result dict :=
  rbind (added_in_catalog m) (fun added =>
  let infos := dict_set infos "added_in_catalog" (VInt added) in
  let infos := dict_set infos "branch" (get_default infos "branch" (VStr "master")) in
  rbind (resolve_revision m infos) (fun revision =>
  let infos := dict_set infos "revision" revision in
  rbind (commit m (str_of_value revision)) (fun c =>
  let timestamp := committed_date c in
  rbind (load_manifest app m) (fun manifest =>
  rbind (subscript manifest "id") (fun id =>
  rbind (getitem infos "branch") (fun branch =>
  rbind (getitem infos "revision") (fun revision =>
  rbind (getitem infos "url") (fun url =>
  rbind (getitem infos "added_in_catalog") (fun added =>
  rbind (getitem infos "state") (fun state =>
  rbind (str_in "package-not-maintained"
           (get_default infos "antifeatures" (VList []))) (fun unmaintained =>
  rbind (value_get manifest "antifeatures" (VDict [])) (fun declared =>
  rbind (value_keys declared) (fun keys =>
  rbind (list_add keys (get_default infos "antifeatures" (VList []))) (fun all =>
  rbind (list_of_set all) (fun antifeatures_list =>
  Ok [ ("id", id);
       ("git", VDict [ ("branch", branch); ("revision", revision); ("url", url) ]);
       ("added_in_catalog", added);
       ("lastUpdate", VInt timestamp);
       ("manifest", manifest);
       ("state", state);
       ("level", get_default infos "level" (VStr "?"));
       ("maintained", VBool (negb unmaintained));
       ("high_quality", get_default infos "high_quality" (VBool false));
       ("featured", get_default infos "featured" (VBool false));
       ("category", get_default infos "category" VNone);
       ("subtags", get_default infos "subtags" (VList []));
       ("potential_alternative_to",
         get_default infos "potential_alternative_to" (VList []));
       ("antifeatures", VList antifeatures_list) ]))))))))))))))).

Definition build_app_dict (app : string) (infos : dict) : M dict :=
  d <- get_disk ;;
  match cache d app with
  | None => raise (AssertionError ("No cache yet for " ++ app))
  | Some m => lift (app_dict_of_mirror app infos m)
  end.

(** Keys of [result_dict]: Python compares them with [==], under which
    numbers of different types can be equal. *)
Definition key_num (k : value) : option Q :=
  match k with
  | VInt z => Some (inject_Z z)
  | VBool b => Some (if b then 1%Q else 0%Q)
  | VFloat (Finite q) => Some q
  | _ => None
  end.

Definition key_eqb (a b : value) : bool :=
  match a, b with
  | VStr x, VStr y => String.eqb x y
  | VNone, VNone => true
  | VFloat PosInf, VFloat PosInf => true
  | VFloat NegInf, VFloat NegInf => true
  | _, _ =>
      match key_num a, key_num b with
      | Some x, Some y => Qeq_bool x y
      | _, _ => false
      end
  end.

(** [result_dict[k] = entry] *)
Fixpoint rd_set (rd : list (value * dict)) (k : value) (entry : dict)
  : list (value * dict) :=
  match rd with
  | [] => [(k, entry)]
  | (k', entry') :: rd' =>
      if key_eqb k' k then (k', entry) :: rd'
      else (k', entry') :: rd_set rd' k entry
  end.

Fixpoint rd_get (rd : list (value * dict)) (k : value) : option dict :=
  match rd with
  | [] => None
  | (k', entry) :: rd' => if key_eqb k' k then Some entry else rd_get rd' k
  end.

(** The loop of lines 172-182. *)
Fixpoint build_items (items : list (string * dict))
  (result_dict : list (value * dict)) : M (list (value * dict)) :=
  match items with
  | [] => ret result_dict
  | (app, infos) :: rest =>
      let app := lower app in
      built <- try_except
                 (app_dict <- build_app_dict app infos ;; ret (Some app_dict))
                 (fun e =>
                    error ("Processing " ++ app ++ " failed: " ++ exn_str e) ;;;
                    ret None) ;;
      match built with
      | None => build_items rest result_dict
      | Some app_dict =>
          id <- lift (getitem app_dict "id") ;;
          if hashable id
          then build_items rest (rd_set result_dict id app_dict)
          else raise (TypeError "unhashable type")
      end
  end.

(** [float(str(infos["manifest"].get("packaging_format", "")).strip() or "0")]:
    a number the loader parsed is itself; text goes through [float]; the
    text of anything else is no float literal. *)
Definition packaging_format (entry : dict) : result pyfloat :=
  rbind (getitem entry "manifest") (fun manifest =>
  rbind (value_get manifest "packaging_format" (VStr "")) (fun pf =>
  match pf with
  | VInt z => Ok (Finite (inject_Z z))
  | VFloat f => Ok f
  | VStr s =>
      let t := strip s in
      if String.eqb t "" then Ok (Finite 0%Q)
      else match float_of_text t with
           | Some f => Ok f
           | None => Raise (ValueError ("could not convert string to float: '" ++ t ++ "'"))
           end
  | _ => Raise (ValueError "could not convert string to float")
  end)).

(** [x < 2] on floats *)
Definition below_2 (f : pyfloat) : bool :=
  match f with
  | Finite q => negb (Qle_bool 2%Q q)
  | NegInf => true
  | PosInf | NaN => false
  end.

(** Line 189: the comprehension of [result_dict_with_manifest_v1]. *)
Fixpoint manifest_v1_entries (rd : list (value * dict))
  : result (list (value * dict)) :=
  match rd with
  | [] => Ok []
  | (name, infos) :: rd' =>
      rbind (packaging_format infos) (fun pf =>
      rbind (manifest_v1_entries rd') (fun kept =>
      Ok (if below_2 pf then (name, infos) :: kept else kept)))
  end.

(** [json.dumps(..., sort_keys=True)] sorts the items of the app mapping and
    raises [TypeError] when two keys cannot be ordered. *)
Definition key_kind (k : value) : nat :=
  match k with
  | VStr _ => 0
  | VInt _ | VBool _ | VFloat _ => 1
  | _ => 2
  end.

Definition sortable_keys (ks : list value) : bool :=
  match ks with
  | [] | [_] => true
  | k :: ks' =>
      andb (Nat.ltb (key_kind k) 2)
           (forallb (fun k' => Nat.eqb (key_kind k') (key_kind k)) ks')
  end.

(** [with open(path, "w") as f: f.write(json.dumps(doc, sort_keys=True))];
    the log keeps the writes that completed. *)
Definition write_json (path : string) (doc : Document) : M unit :=
  if sortable_keys (map fst (doc_apps doc)) then record_build path doc
  else raise (TypeError "'<' not supported between instances").

Fixpoint map_entries (f : dict -> result dict) (rd : list (value * dict))
  : result (list (value * dict)) :=
  match rd with
  | [] => Ok []
  | (k, entry) :: rd' =>
      rbind (f entry) (fun entry' =>
      rbind (map_entries f rd') (fun rest => Ok ((k, entry') :: rest)))
  end.

(** Lines 209-212 for one app. *)
Definition upgrade_manifest (app : dict) : result dict :=
  rbind (packaging_format app) (fun pf =>
  if below_2 pf then
    rbind (getitem app "manifest") (fun manifest =>
    match manifest with
    | VDict m =>
        rbind (convert_v1_manifest_to_v2_for_catalog m) (fun m' =>
        Ok (dict_set app "manifest" (VDict m')))
    | _ => Raise (AttributeError "manifest is not a dict")
    end)
  else Ok app).

(** [if "manifest" in app and k in app["manifest"]: del app["manifest"][k]] *)
Definition del_manifest_key (k : string) (app : dict) : result dict :=
  match dict_get app "manifest" with
  | None => Ok app
  | Some manifest =>
      rbind (str_in k manifest) (fun present =>
      if present : bool then
        match manifest with
        | VDict m => Ok (dict_set app "manifest" (VDict (dict_del m k)))
        | _ => Raise (TypeError "object does not support item deletion")
        end
      else Ok app)
  end.

(** Lines 215-219 for one app. *)
Definition strip_manifest (app : dict) : result dict :=
  rbind (del_manifest_key "install" app) (del_manifest_key "resources").

(** Lines 221-229. *)
Fixpoint add_logo_hashes (rd : list (value * dict)) : M (list (value * dict)) :=
  match rd with
  | [] => ret []
  | (appid, app) :: rd' =>
      match appid with
      | VStr appid_text =>
          let lowered := lower appid_text in
          d <- get_disk ;;
          logo_hash <- match logos d lowered with
                       | Some digest =>
                           record_logo_copy lowered digest ;;; ret (VStr digest)
                       | None => ret VNone
                       end ;;
          rest <- add_logo_hashes rd' ;;
          ret ((appid, dict_set app "logo_hash" logo_hash) :: rest)
      | _ => raise (AttributeError "object has no attribute 'lower'")
      end
  end.

(** [infos_for_doc_catalog] *)
Definition infos_for_doc_catalog (infos : dict) : result dict :=
  let level :=
    match dict_get infos "level" with
    | Some (VInt z) => VInt z
    | Some (VBool b) => VBool b
    | _ => VInt (-1)
    end in
  let n := match level with
           | VInt z => z
           | VBool true => 1
           | _ => 0
           end in
  rbind (getitem infos "id") (fun id =>
  rbind (getitem infos "category") (fun category =>
  rbind (getitem infos "git") (fun git_infos =>
  rbind (subscript git_infos "url") (fun url =>
  rbind (getitem infos "manifest") (fun manifest =>
  rbind (subscript manifest "name") (fun name =>
  rbind (subscript manifest "description") (fun description =>
  rbind (getitem infos "state") (fun state =>
  Ok [ ("id", id);
       ("category", category);
       ("url", url);
       ("name", name);
       ("description", description);
       ("state", state);
       ("level", level);
       ("broken", VBool (n <=? 0));
       ("good_quality", VBool (n >=? 8));
       ("bad_quality", VBool (n <=? 5));
       ("antifeatures", get_default infos "antifeatures" VNone);
       ("potential_alternative_to",
         get_default infos "potential_alternative_to" (VList [])) ])))))))).

(** Lines 268-272: the comprehension of [result_dict_doc]. *)
Fixpoint doc_entries (rd : list (value * dict)) : result (list (value * dict)) :=
  match rd with
  | [] => Ok []
  | (k, v) :: rd' =>
      rbind (getitem v "state") (fun state =>
      if eq_str state "working" then
        rbind (infos_for_doc_catalog v) (fun summary =>
        rbind (doc_entries rd') (fun rest => Ok ((k, summary) :: rest)))
      else doc_entries rd')
  end.

Definition v2_path : string := "builds/default/v2/apps.json".
Definition v3_path : string := "builds/default/v3/apps.json".
Definition doc_path : string := "builds/default/doc_catalog/apps.json".

(** The three projections of a [result_dict]. *)
Definition write_projections (result_dict : list (value * dict)) : M unit :=
  result_dict_with_manifest_v1 <- lift (manifest_v1_entries result_dict) ;;
  write_json v2_path
    (mkDocument result_dict_with_manifest_v1 categories (Some antifeatures)) ;;;
  upgraded <- lift (map_entries upgrade_manifest result_dict) ;;
  stripped <- lift (map_entries strip_manifest upgraded) ;;
  result_dict_with_manifest_v2 <- add_logo_hashes stripped ;;
  write_json v3_path
    (mkDocument result_dict_with_manifest_v2 categories (Some antifeatures)) ;;;
  result_dict_doc <- lift (doc_entries result_dict) ;;
  write_json doc_path (mkDocument result_dict_doc categories None).

Definition build_catalog : M unit :=
  result_dict <- for_progressbar (sorted_items catalog)
                   (fun items => build_items items []) ;;
  write_projections result_dict.

(** [if __name__ == "__main__"] *)
Definition main : M unit :=
  refresh_all_caches ;;;
  build_catalog.

End Program.

(** Time passing between two statements. *)
Definition elapse (dt : Q) (s : State) : State :=
  mkState (mkDisk (clock (disk s) + dt)%Q (cache (disk s)) (logos (disk s)))
          (log s).

(** The calls of a log that reached the network. *)
Definition network_calls (l : Log) : list GitCall :=
  filter is_network (git_calls l).

(** The clone a call works on, and the depth it asks for when it creates
    one. *)
Definition call_app (c : GitCall) : string :=
  match c with
  | CloneFrom _ app _ _ | RepoOpen app | RemoteOrigin app | RemoteSetUrl app _
  | ActiveBranchDiffers app _ | Branches app | CheckoutForce app _
  | RemoteSetBranchesAdd app _ | FetchBranchToBranch app _ | FetchForce app _
  | ResetHardOrigin app _ => app
  end.

Definition clone_depth (c : GitCall) : option Z :=
  match c with
  | CloneFrom _ _ depth _ => Some depth
  | _ => None
  end.

(** The call works on the clone of a package of [apps.toml] whose state is
    not "notworking", and a clone is never that shallow. *)
Definition serves_listed_package (apps_toml : list (string * dict))
  (c : GitCall) : Prop :=
  (exists name infos,
      In (name, infos) apps_toml /\ is_notworking infos = false
      /\ call_app c = lower name)
  /\ (forall depth, clone_depth c = Some depth -> depth = 20 \/ depth = 40).

(** The entry carries a state, and it is not "notworking". *)
Definition entry_not_notworking (entry : dict) : Prop :=
  exists state, dict_get entry "state" = Some state
                /\ eq_str state "notworking" = false.

Definition document_without_notworking (b : string * Document) : Prop :=
  Forall (fun ke => entry_not_notworking (snd ke)) (doc_apps (snd b)).

(** A step [m] keeps the property [I] of the machine. *)
Definition preserves {A} (I : State -> Prop) (m : M A) : Prop :=
  forall s r s', m s = (r, s') -> I s -> I s'.

(** Properties of the log that speak of the git calls one by one and of the
    files written as a whole. *)
Definition log_inv (Pc : GitCall -> Prop)
  (Pb : list (string * Document) -> Prop) (s : State) : Prop :=
  Forall Pc (git_calls (log s)) /\ Pb (builds (log s)).


(** Text made of decimal digits and minus signs, as git prints a date. *)
Definition sign_or_digit (c : ascii) : bool :=
  let n := nat_of_ascii c in
  orb (Nat.eqb n 45) (andb (Nat.leb 48 n) (Nat.leb n 57)).

Fixpoint all_chars (P : ascii -> bool) (s : string) : bool :=
  match s with
  | EmptyString => true
  | String c s' => andb (P c) (all_chars P s')
  end.

(** The commits [git log -G cinny --first-parent -- apps.json apps.toml]
    selects in a mirror, newest first. *)
Definition cinny_commits (m : Mirror) : list Commit :=
  filter (diff_matches "cinny" ["apps.json"; "apps.toml"]) (first_parent_log m).

(** The history is listed newest first, as [git rev-list] does by default
    (by committer date). *)
Definition newest_first (l : list Commit) : Prop :=
  StronglySorted (fun a b => committed_date b <= committed_date a) l.

(** [entry["git"]["revision"]] *)
Definition entry_revision (entry : dict) : option value :=
  match dict_get entry "git" with
  | Some (VDict g) => dict_get g "revision"
  | _ => None
  end.

(** The commit is in the history, changes a meaningful path, and no commit
    of the history that does is newer. *)
Definition newest_meaningful (m : Mirror) (c : Commit) : Prop :=
  In c (rev_list_all m)
  /\ touches relevant_files c = true
  /\ forall c', In c' (rev_list_all m) -> touches relevant_files c' = true ->
                committed_date c' <= committed_date c.

(** The modification time of [.git/FETCH_HEAD] of a clone. *)
Definition fetch_head_of (d : Disk) (app : string) : option Q :=
  match cache d app with
  | Some m => fetch_head m
  | None => None
  end.

(** The calls that run [git fetch]. *)
Definition is_fetch (c : GitCall) : bool :=
  match c with
  | FetchBranchToBranch _ _ | FetchForce _ _ => true
  | _ => false
  end.

(** What the freshness test meets in git: the clock never runs backwards
    during a call, no call removes a clone, a fetch in a clone rewrites
    [FETCH_HEAD] whether it succeeds or fails, and a hard reset leaves that
    file alone. *)
Record git_keeps_time
  (git : forall c : GitCall, Disk -> result (answer c) * Disk) : Prop := {
  clock_forward :
    forall c d, (clock d <= clock (snd (git c d)))%Q;
  clone_stays :
    forall c d app, cache d app <> None -> cache (snd (git c d)) app <> None;
  fetch_stamps :
    forall c d,
      is_fetch c = true -> cache d (call_app c) <> None ->
      exists t, fetch_head_of (snd (git c d)) (call_app c) = Some t
                /\ (clock d <= t)%Q;
  reset_keeps :
    forall app branch d,
      fetch_head_of (snd (git (ResetHardOrigin app branch) d)) app
      = fetch_head_of d app
}.

(** [FETCH_HEAD] of the clone was written at [t0] or later. *)
Definition stamped_since (t0 : Q) (d : Disk) (app : string) : Prop :=
  exists t, fetch_head_of d app = Some t /\ (t0 <= t)%Q.

(** The fetches one refresh sequence can make, in order: none when it
    stops early, the fetch of line 151, and before it the fetch of line 149
    when the branch is new to the clone. *)
Definition fetches_of_a_refresh (app : string) (branch : value)
  : list (list GitCall) :=
  [ [];
    [FetchForce app branch];
    [FetchBranchToBranch app branch];
    [FetchBranchToBranch app branch; FetchForce app branch] ].

(** From [s0] to [s] the network was reached by the calls [nets], the clone
    is still there, and once a fetch was made [FETCH_HEAD] is younger than
    [s0]. *)
Definition tracks (app : string) (s0 : State) (nets : list GitCall)
  (s : State) : Prop :=
  network_calls (log s) = (network_calls (log s0) ++ nets)%list
  /\ (clock (disk s0) <= clock (disk s))%Q
  /\ cache (disk s) app <> None
  /\ (nets <> [] -> stamped_since (clock (disk s0)) (disk s) app).

(** The first commit, in the order git lists the history, that changes a
    meaningful path. *)
Definition first_meaningful (m : Mirror) (c : Commit) : Prop :=
  exists earlier later,
    rev_list_all m = (earlier ++ c :: later)%list
    /\ touches relevant_files c = true
    /\ Forall (fun c' => touches relevant_files c' = false) earlier.

(** The text names a commit of the object store, or a ref. *)
Definition in_object_store (m : Mirror) (rev : string) : Prop :=
  exists c, In c (object_store m) /\ hexsha c = rev.

Definition names_a_ref (m : Mirror) (rev : string) : Prop :=
  exists r, In r (refs m) /\ fst r = rev.

Definition in_history (m : Mirror) (rev : string) : Prop :=
  exists c, In c (rev_list_all m) /\ hexsha c = rev.

(* ================================================================== *)
(** ** The text of a document *)
(* ================================================================== *)

(** [json.dumps(doc, sort_keys=True)] with its default separators and
    [ensure_ascii], on strings whose characters are code points below 256. *)
Section Json.

(** [repr] of a finite float. *)
Variable py_repr : value -> string.

Definition quote : string := String (ascii_of_nat 34) EmptyString.

Definition hex_digit (n : nat) : ascii :=
  ascii_of_nat (if Nat.ltb n 10 then 48 + n else 87 + n).

Definition json_char (c : ascii) : string :=
  let n := nat_of_ascii c in
  if Nat.eqb n 34 then "\" ++ quote
  else if Nat.eqb n 92 then "\\"
  else if Nat.eqb n 10 then "\n"
  else if Nat.eqb n 13 then "\r"
  else if Nat.eqb n 9 then "\t"
  else if Nat.eqb n 8 then "\b"
  else if Nat.eqb n 12 then "\f"
  else if orb (Nat.ltb n 32) (Nat.ltb 126 n)
       then "\u00" ++ String (hex_digit (n / 16))
                             (String (hex_digit (n mod 16)) EmptyString)
       else String c EmptyString.

Fixpoint json_escape (s : string) : string :=
  match s with
  | EmptyString => EmptyString
  | String c s' => json_char c ++ json_escape s'
  end.

Definition json_string (s : string) : string := quote ++ json_escape s ++ quote.

Definition json_float (f : pyfloat) : string :=
  match f with
  | Finite _ => py_repr (VFloat f)
  | PosInf => "Infinity"
  | NegInf => "-Infinity"
  | NaN => "NaN"
  end.

(** [", ".join(l)] *)
Fixpoint join_comma (l : list string) : string :=
  match l with
  | [] => EmptyString
  | [x] => x
  | x :: l' => x ++ ", " ++ join_comma l'
  end.

Definition json_member (kv : string * string) : string :=
  json_string (fst kv) ++ ": " ++ snd kv.

Fixpoint json_value (v : value) : string :=
  match v with
  | VNone => "null"
  | VBool true => "true"
  | VBool false => "false"
  | VInt z => str_of_int z
  | VFloat f => json_float f
  | VStr s => json_string s
  | VList l => "[" ++ join_comma (map json_value l) ++ "]"
  | VDict d =>
      "{" ++ join_comma
               (map json_member
                    (sorted_items
                       (map (fun kv => (fst kv, json_value (snd kv))) d)))
          ++ "}"
  end.

(** The text of a key of the app mapping. *)
Definition json_key (k : value) : string :=
  match k with
  | VStr s => s
  | VInt z => str_of_int z
  | VBool true => "true"
  | VBool false => "false"
  | VFloat f => json_float f
  | _ => "null"
  end.

(** The order [sort_keys] puts two keys of one kind in. *)
Definition key_leb (a b : value) : bool :=
  match a, b with
  | VStr x, VStr y => String.leb x y
  | _, _ =>
      match key_num a, key_num b with
      | Some x, Some y => Qle_bool x y
      | _, _ => true
      end
  end.

Fixpoint insert_app (x : value * string) (l : list (value * string))
  : list (value * string) :=
  match l with
  | [] => [x]
  | y :: l' => if key_leb (fst x) (fst y) then x :: l else y :: insert_app x l'
  end.

Fixpoint sorted_apps (l : list (value * string)) : list (value * string) :=
  match l with
  | [] => []
  | x :: l' => insert_app x (sorted_apps l')
  end.

Definition json_apps (apps : list (value * dict)) : string :=
  "{" ++ join_comma
           (map (fun kv => json_member (json_key (fst kv), snd kv))
                (sorted_apps
                   (map (fun ke => (fst ke, json_value (VDict (snd ke)))) apps)))
      ++ "}".

(** The bytes written for a document. *)
Definition document_text (doc : Document) : string :=
  "{" ++ join_comma
           ((match doc_antifeatures doc with
             | Some a => [json_member ("antifeatures", json_value a)]
             | None => []
             end
             ++ [ json_member ("apps", json_apps (doc_apps doc));
                  json_member ("categories", json_value (doc_categories doc)) ])%list)
      ++ "}".

End Json.

(* ================================================================== *)
(** ** The taxonomies and the progress bar *)
(* ================================================================== *)

(** [infos["id"] = key] on what the loader produced for one key. *)
Definition with_id (key : string) (infos : value) : result value :=
  match infos with
  | VDict d => Ok (VDict (dict_set d "id" (VStr key)))
  | _ => Raise (TypeError "object does not support item assignment")
  end.

(** [for key, infos in table.items(): infos["id"] = key], then
    [list(table.values())]. *)
Fixpoint values_with_ids (table : dict) : result (list value) :=
  match table with
  | [] => Ok []
  | (key, infos) :: table' =>
      rbind (with_id key infos) (fun tagged =>
      rbind (values_with_ids table') (fun rest => Ok (tagged :: rest)))
  end.

(** Lines 28-31 for one category. *)
Definition load_category (category_id : string) (infos : value)
  : result value :=
  match infos with
  | VDict d =>
      let d := dict_set d "id" (VStr category_id) in
      match get_default d "subtags" (VDict []) with
      | VDict subtags =>
          rbind (values_with_ids subtags) (fun l =>
          Ok (VDict (dict_set d "subtags" (VList l))))
      | _ => Raise (AttributeError "object has no attribute 'items'")
      end
  | _ => Raise (TypeError "object does not support item assignment")
  end.

(** Lines 26-33: [categories.toml] as loaded, to the list of categories. *)
Fixpoint load_categories (table : dict) : result (list value) :=
  match table with
  | [] => Ok []
  | (category_id, infos) :: table' =>
      rbind (load_category category_id infos) (fun category =>
      rbind (load_categories table') (fun rest => Ok (category :: rest)))
  end.

(** Lines 36-39: [antifeatures.toml] as loaded, to the list of
    antifeatures. *)
Definition load_antifeatures (table : dict) : result (list value) :=
  values_with_ids table.

(** [c * n] for a one-character string [c] *)
Definition repeat_char (c : ascii) (n : Z) : string :=
  string_of_list_ascii (repeat c (Z.to_nat n)).

(** [x = int(size * j / count)]; the quotient of the floats is taken as the
    exact one. *)
Definition cells (size count j : Z) : Z := Z.quot (size * j) count.

(** ["#" * x + "." * (size - x)] *)
Definition bar (size count j : Z) : string :=
  repeat_char "#" (cells size count j)
  ++ repeat_char "." (size - cells size count j).

Definition carriage_return : string := String (ascii_of_nat 13) EmptyString.

(** What [show(j, name)] writes. *)
Definition show (prefix : string) (size count j : Z) (name : string)
  : result string :=
  if count =? 0 then Raise ZeroDivisionError
  else Ok (prefix ++ "[" ++ bar size count j ++ "] "
             ++ str_of_int j ++ "/" ++ str_of_int count ++ " "
             ++ name ++ "          " ++ carriage_return).

(** What a consumer of the generator sees, in order. *)
Inductive progress_event (A : Type) : Type :=
| Shown (text : string)
| Yielded (item : string * A).
Arguments Shown {A} text.
Arguments Yielded {A} item.

Fixpoint progress_steps {A} (prefix : string) (size count : Z)
  (i : Z) (it : list (string * A)) : result (list (progress_event A)) :=
  match it with
  | [] => Ok []
  | item :: it' =>
      rbind (show prefix size count (i + 1) (fst item)) (fun text =>
      rbind (progress_steps prefix size count (i + 1) it') (fun rest =>
      Ok (Yielded item :: Shown text :: rest)))
  end.

(** [progressbar(it, prefix, size)], consumed to its end. *)
Definition progressbar {A} (it : list (string * A)) (prefix : string)
  (size : Z) : result (list (progress_event A)) :=
  let count := Z.of_nat (List.length it) in
  rbind (show prefix size count 0 "") (fun first =>
  rbind (progress_steps prefix size count 0 it) (fun steps =>
  Ok (Shown first :: steps ++ [Shown (String newline EmptyString)])%list)).

Definition yielded {A} (events : list (progress_event A))
  : list (string * A) :=
  flat_map (fun ev => match ev with Yielded item => [item] | Shown _ => [] end)
           events.

Definition shown {A} (events : list (progress_event A)) : list string :=
  flat_map (fun ev => match ev with Shown text => [text] | Yielded _ => [] end)
           events.

(** The calls [refresh_sequence] makes when every one of them succeeds,
    [differs] and [known] being what git answers about the branch. *)
Definition refresh_calls (app : string) (url branch : value)
  (differs known : bool) : list GitCall :=
  ([RepoOpen app; RemoteOrigin app; RemoteSetUrl app url;
    ActiveBranchDiffers app branch]
   ++ (if differs then
         Branches app
         :: (if known then [CheckoutForce app branch]
             else [RemoteSetBranchesAdd app branch; FetchBranchToBranch app branch])
       else [])
   ++ [FetchForce app branch; ResetHardOrigin app branch])%list.

(** The keys of a [result_dict], in order. *)
Definition keys_of (rd : list (value * dict)) : list value := map fst rd.

(** [entry["state"] == "working"] *)
Definition is_working (entry : dict) : bool :=
  match dict_get entry "state" with
  | Some state => eq_str state "working"
  | None => false
  end.

(** The boolean a doc summary carries under [k]. *)
Definition flag (summary : dict) (k : string) : option bool :=
  match dict_get summary k with
  | Some (VBool b) => Some b
  | _ => None
  end.

(* ================================================================== *)
(** ** Sample machines *)
(* ================================================================== *)

Module Samples.

Definition sha_a : string := "aaaaaaaaaaaaaaaaaaaaaaaaaaaaaaaaaaaaaaaa".
Definition sha_b : string := "bbbbbbbbbbbbbbbbbbbbbbbbbbbbbbbbbbbbbbbb".
Definition sha_c : string := "cccccccccccccccccccccccccccccccccccccccc".

(** Three commits, newest first: a README fix, a script change that was
    written at 1500 and rebased (committed) at 2500, and the first import. *)
Definition commit_readme : Commit :=
  mkCommit sha_c 3000 3000 [("README.md", ["typo"])].
Definition commit_scripts : Commit :=
  mkCommit sha_b 1500 2500 [("scripts/install", ["ynh_setup_source"])].
Definition commit_import : Commit :=
  mkCommit sha_a 1000 1000
    [("manifest.toml", ["id = cinny"]); ("apps.toml", ["[cinny]"])].

Definition manifest_of (id : string) (format : value) : value :=
  VDict [ ("id", VStr id); ("name", VStr id);
          ("description", VStr "A package");
          ("packaging_format", format);
          ("install", VDict [("domain", VDict [])]);
          ("resources", VDict [("system_user", VDict [])]) ].

Definition mirror_of (id : string) (format : value) (fetched : option Q)
  : Mirror :=
  mkMirror fetched
           [commit_readme; commit_scripts; commit_import]
           []
           [commit_readme; commit_scripts; commit_import]
           [("v1", commit_import)]
           (Some (Ok (manifest_of id format)))
           None.

(** [git fetch] rewrites [.git/FETCH_HEAD], whether it succeeds or not. *)
Definition stamp_fetch_head (app : string) (d : Disk) : Disk :=
  mkDisk (clock d)
         (fun a =>
            if String.eqb a app then
              option_map (fun m => mkMirror (Some (clock d)) (rev_list_all m)
                                            (unreachable m)
                                            (first_parent_log m) (refs m)
                                            (manifest_toml m) (manifest_json m))
                         (cache d a)
            else cache d a)
         (logos d).

(** [git clone] leaves a clone that has never fetched. *)
Definition add_clone (app : string) (d : Disk) : Disk :=
  mkDisk (clock d)
         (fun a => if String.eqb a app then Some (mirror_of app (VInt 2) None)
                   else cache d a)
         (logos d).

(** A git for the samples.  The remotes of the apps listed in [down] cannot
    be reached: a clone of them fails, and a fetch fails after rewriting
    [FETCH_HEAD].  The folders of the apps listed in [damaged] are no
    repository any more: [Repo(...)] raises.  Every other call succeeds; the
    checked-out branch is never the one asked for, and [master] is the only
    local branch. *)
Definition git_sample (down damaged : list string) (c : GitCall) (d : Disk)
  : result (answer c) * Disk :=
  let unreachable := Raise (GitCommandError "unable to access remote") in
  let is_down app := existsb (String.eqb app) down in
  let is_damaged app := existsb (String.eqb app) damaged in
  match c as c0 return result (answer c0) * Disk with
  | CloneFrom _ app _ _ =>
      if is_down app then (unreachable, d) else (Ok tt, add_clone app d)
  | FetchBranchToBranch app _ =>
      (if is_down app then unreachable else Ok tt, stamp_fetch_head app d)
  | FetchForce app _ =>
      (if is_down app then unreachable else Ok tt, stamp_fetch_head app d)
  | RepoOpen app =>
      (if is_damaged app then Raise (OtherError "InvalidGitRepositoryError")
       else Ok tt, d)
  | ActiveBranchDiffers _ _ => (Ok true, d)
  | Branches _ => (Ok ["master"], d)
  | RemoteOrigin _ | RemoteSetUrl _ _ | CheckoutForce _ _
  | RemoteSetBranchesAdd _ _ | ResetHardOrigin _ _ => (Ok tt, d)
  end.

Definition infos_of (url : string) (extra : dict) : dict :=
  (("url", VStr url) :: ("state", VStr "working") :: extra)%list.

Definition hour : Q := 3600%Q.

(** A disk whose clones [a], [b] and [c] were all last fetched at time 0. *)
Definition disk_abc (now : Q) : Disk :=
  mkDisk now
         (fun app =>
            if String.eqb app "a" then Some (mirror_of "a" (VInt 2) (Some 0%Q))
            else if String.eqb app "b" then Some (mirror_of "b" (VFloat (Finite 1.5%Q)) (Some 0%Q))
            else if String.eqb app "c" then Some (mirror_of "c" (VInt 1) (Some 0%Q))
            else None)
         (fun _ => None).

Definition apps_abc : list (string * dict) :=
  [ ("c", infos_of "https://example.org/c" []);
    ("a", infos_of "https://example.org/a" []);
    ("b", infos_of "https://example.org/b" []) ].

Definition start (d : Disk) : State := mkState d empty_log.

Definition infos_b : dict := infos_of "https://example.org/b" [].

Definition mirror_b : Mirror := mirror_of "b" (VFloat (Finite 1.5%Q)) (Some 0%Q).

(** [b] pinned to its first import, and to a commit the mirror lacks. *)
Definition sha_d : string := "dddddddddddddddddddddddddddddddddddddddd".
Definition infos_b_pinned : dict :=
  infos_of "https://example.org/b" [("revision", VStr sha_a)].
Definition infos_b_lost : dict :=
  infos_of "https://example.org/b" [("revision", VStr sha_d)].

(** The mirror of [b] after upstream rewrote its branch: the forced fetch
    and the hard reset left the old tip in the object store, out of the
    history of every ref.  [b] pinned to that old tip. *)
Definition sha_e : string := "eeeeeeeeeeeeeeeeeeeeeeeeeeeeeeeeeeeeeeee".
Definition commit_dropped : Commit :=
  mkCommit sha_e 2000 2000 [("conf/nginx.conf", ["location /"])].
Definition mirror_b_rewritten : Mirror :=
  mkMirror (Some 0%Q)
           [commit_readme; commit_scripts; commit_import]
           [commit_dropped]
           [commit_readme; commit_scripts; commit_import]
           [("v1", commit_import)]
           (Some (Ok (manifest_of "b" (VInt 2))))
           None.
Definition infos_b_dropped : dict :=
  infos_of "https://example.org/b" [("revision", VStr sha_e)].

(** A mirror whose tip carries an older committer date than its parent,
    both changing meaningful paths: git lists the child first. *)
Definition commit_child : Commit :=
  mkCommit sha_c 1000 1000 [("scripts/install", ["ynh_setup_source"])].
Definition commit_parent : Commit :=
  mkCommit sha_a 2000 2000
    [("manifest.toml", ["id = cinny"]); ("apps.toml", ["[cinny]"])].
Definition mirror_skewed : Mirror :=
  mkMirror (Some 0%Q)
           [commit_child; commit_parent] []
           [commit_child; commit_parent] []
           (Some (Ok (manifest_of "b" (VInt 2)))) None.

(** [b] on a branch its clone does not know yet. *)
Definition infos_b_testing : dict :=
  infos_of "https://example.org/b" [("branch", VStr "testing")].

(** One call of [refresh_cache] on the clone of [b] at time [now], and a
    second one [dt] seconds after the first returned. *)
Definition first_refresh (down damaged : list string) (infos : dict) (now : Q)
  : result unit * State :=
  refresh_cache (git_sample down damaged) "b" infos (start (disk_abc now)).

Definition second_refresh (down damaged : list string) (infos : dict)
  (now dt : Q) : result unit * State :=
  refresh_cache (git_sample down damaged) "b" infos
                (elapse dt (snd (first_refresh down damaged infos now))).

(** A mirror in whose history no change to [apps.json] or [apps.toml]
    mentions cinny. *)
Definition mirror_without_cinny : Mirror :=
  mkMirror (Some 0%Q) [commit_readme; commit_scripts] []
           [commit_readme; commit_scripts]
           [] (Some (Ok (manifest_of "b" (VInt 2)))) None.

(** The process-dependent parts, fixed for the samples. *)
Fixpoint dedupe (l : list value) : list value :=
  match l with
  | [] => []
  | x :: l' => if existsb (key_eqb x) l' then dedupe l' else x :: dedupe l'
  end.
Definition one_order (l : list value) : list value := dedupe l.
Definition other_order (l : list value) : list value := rev (dedupe l).
Definition no_float (s : string) : option pyfloat := None.
Definition no_repr (v : value) : string := "".
Definition convert_keep (m : dict) : result dict :=
  Ok (dict_set m "packaging_format" (VInt 2)).

(** A whole run over [apps_abc] at time [now], the remotes of [down] being
    out of reach and the folders of [damaged] being no repository. *)
Definition run_abc (down damaged : list string) (now : Q)
  : result unit * State :=
  main (git_sample down damaged) one_order no_float no_repr convert_keep
       (VList []) (VList []) apps_abc (start (disk_abc now)).

(** The keys of the app mapping of each file written, in the order of the
    writes. *)
Definition written_keys (s : State) : list (string * list value) :=
  map (fun b => (fst b, map fst (doc_apps (snd b)))) (builds (log s)).

(** The [result_dict] of that run, and in it the entry of [b], whose
    manifest declares packaging format 1.5. *)
Definition built_abc : list (value * dict) :=
  match fst (build_items one_order no_repr (sorted_items (catalog apps_abc)) []
                         (start (disk_abc (25 * hour)%Q))) with
  | Ok rd => rd
  | Raise _ => []
  end.

Definition entry_b : dict :=
  match rd_get built_abc (VStr "b") with
  | Some entry => entry
  | None => []
  end.

Definition manifest_b : dict :=
  match manifest_of "b" (VFloat (Finite 1.5%Q)) with
  | VDict m => m
  | _ => []
  end.

Definition projections_abc : result unit * State :=
  write_projections no_float convert_keep (VList []) (VList []) built_abc
                    (start (disk_abc (25 * hour)%Q)).

(** A registry of one package that lists two antifeatures. *)
Definition apps_two_antifeatures : list (string * dict) :=
  [ ("c", infos_of "https://example.org/c"
            [("antifeatures",
               VList [VStr "deprecated-software"; VStr "package-not-maintained"])]) ].

(** A whole run over it, in a process that iterates over sets in [order]. *)
Definition run_two_antifeatures (order : list value -> list value)
  : result unit * State :=
  main (git_sample [] []) order no_float no_repr convert_keep
       (VList []) (VList []) apps_two_antifeatures
       (start (disk_abc (25 * hour)%Q)).

(** The files of a run: path and bytes. *)
Definition written_texts (s : State) : list (string * string) :=
  map (fun b => (fst b, document_text no_repr (snd b))) (builds (log s)).

(** The antifeatures of the entry [key] in each file of a run. *)
Definition written_antifeatures (key : value) (s : State)
  : list (string * option value) :=
  map (fun b => (fst b,
                 match rd_get (doc_apps (snd b)) key with
                 | Some entry => dict_get entry "antifeatures"
                 | None => None
                 end))
      (builds (log s)).

End Samples.

(* ================================================================== *)
(** ** Running the monad *)
(* ================================================================== *)

Set Default Proof Using "Type".

Lemma rbind_Ok {A B} (r : result A) (k : A -> result B) (b : B) :
  rbind r k = Ok b -> exists a, r = Ok a /\ k a = Ok b.
Proof. destruct r as [a|e]; simpl; [eauto | discriminate]. Qed.

Lemma bind_run {A B} (m : M A) (k : A -> M B) (s : State) :
  bind m k s = match m s with
               | (Ok a, s') => k a s'
               | (Raise e, s') => (Raise e, s')
               end.
Proof. reflexivity. Qed.

Lemma call_run (git : forall c : GitCall, Disk -> result (answer c) * Disk)
  (c : GitCall) (s : State) :
  call git c s =
  (fst (git c (disk s)),
   mkState (snd (git c (disk s)))
           (mkLog (git_calls (log s) ++ [c]) (console (log s))
                  (builds (log s)) (logo_copies (log s)))).
Proof.
  unfold call, record_call, modify_log, bind. simpl.
  destruct (git c (disk s)); reflexivity.
Qed.

Section Preservation.

Variable I : State -> Prop.

Lemma preserves_ret {A} (a : A) : preserves I (ret a).
Proof. intros s r s' H. injection H as _ <-. auto. Qed.

Lemma preserves_raise {A} (e : exn) : preserves I (@raise A e).
Proof. intros s r s' H. injection H as _ <-. auto. Qed.

Lemma preserves_lift {A} (x : result A) : preserves I (lift x).
Proof. intros s r s' H. injection H as _ <-. auto. Qed.

Lemma preserves_get_disk : preserves I get_disk.
Proof. intros s r s' H. injection H as _ <-. auto. Qed.

Lemma preserves_bind {A B} (m : M A) (k : A -> M B) :
  preserves I m -> (forall a, preserves I (k a)) -> preserves I (bind m k).
Proof.
  intros Hm Hk s r s' H HI. rewrite bind_run in H.
  destruct (m s) as [[a|e] s1] eqn:E.
  - eapply Hk; [exact H|]. eapply Hm; eauto.
  - injection H as _ <-. eapply Hm; eauto.
Qed.

Lemma preserves_try_except {A} (body : M A) (handler : exn -> M A) :
  preserves I body -> (forall e, preserves I (handler e)) ->
  preserves I (try_except body handler).
Proof.
  intros Hb Hh s r s' H HI. unfold try_except in H.
  destruct (body s) as [[a|e] s1] eqn:E.
  - injection H as _ <-. eapply Hb; eauto.
  - eapply Hh; [exact H|]. eapply Hb; eauto.
Qed.

Lemma preserves_for_progressbar {A B} (it : list (string * A))
  (loop : list (string * A) -> M B) :
  preserves I (loop it) -> preserves I (for_progressbar it loop).
Proof.
  intros H. destruct it; [apply preserves_raise | exact H].
Qed.

End Preservation.

(** With an item to hand over, the loop over the progress bar is the loop. *)
Lemma for_progressbar_items {A B} (it : list (string * A))
  (loop : list (string * A) -> M B) :
  it <> [] -> for_progressbar it loop = loop it.
Proof. destruct it; [contradiction | reflexivity]. Qed.

Lemma for_progressbar_empty {A B} (loop : list (string * A) -> M B)
  (s : State) :
  for_progressbar [] loop s = (Raise ZeroDivisionError, s).
Proof. reflexivity. Qed.

Section LogInvariant.

Variable git : forall c : GitCall, Disk -> result (answer c) * Disk.
Variable Pc : GitCall -> Prop.
Variable Pb : list (string * Document) -> Prop.

Lemma preserves_call (c : GitCall) :
  Pc c -> preserves (log_inv Pc Pb) (call git c).
Proof.
  intros Hc s r s' H [Hcalls Hb]. rewrite call_run in H.
  injection H as _ <-. split; simpl; [|exact Hb].
  apply Forall_app. split; [exact Hcalls | constructor; auto].
Qed.

Lemma preserves_print (line : string) : preserves (log_inv Pc Pb) (print line).
Proof. intros s r s' H [Hcalls Hb]. injection H as _ <-. split; assumption. Qed.

Lemma preserves_error (msg : string) : preserves (log_inv Pc Pb) (error msg).
Proof. apply preserves_print. Qed.

Lemma preserves_record_logo_copy (appid digest : string) :
  preserves (log_inv Pc Pb) (record_logo_copy appid digest).
Proof. intros s r s' H [Hcalls Hb]. injection H as _ <-. split; assumption. Qed.

Lemma preserves_git_repo_age (app : string) :
  preserves (log_inv Pc Pb) (git_repo_age app).
Proof. intros s r s' H. injection H as _ <-. auto. Qed.

Lemma preserves_app_cache_folder_exists (app : string) :
  preserves (log_inv Pc Pb) (app_cache_folder_exists app).
Proof. intros s r s' H. injection H as _ <-. auto. Qed.

End LogInvariant.

(* ================================================================== *)
(** ** The catalog and the two loops *)
(* ================================================================== *)

Lemma In_insert_item {A} (x y : string * A) (l : list (string * A)) :
  In y (insert_item x l) <-> y = x \/ In y l.
Proof.
  induction l as [|z l IH]; simpl.
  - intuition.
  - destruct (String.leb (fst x) (fst z)); simpl; [intuition|].
    rewrite IH. intuition.
Qed.

Lemma In_sorted_items {A} (y : string * A) (l : list (string * A)) :
  In y (sorted_items l) <-> In y l.
Proof.
  induction l as [|x l IH]; simpl; [tauto|].
  rewrite In_insert_item, IH. intuition.
Qed.

Lemma In_catalog (apps_toml : list (string * dict)) (name : string)
  (infos : dict) :
  In (name, infos) (catalog apps_toml) <->
  In (name, infos) apps_toml /\ is_notworking infos = false.
Proof.
  unfold catalog. rewrite filter_In. simpl.
  rewrite negb_true_iff. tauto.
Qed.

Lemma dict_get_set_other (d : dict) (k k' : string) (v : value) :
  k <> k' -> dict_get (dict_set d k v) k' = dict_get d k'.
Proof.
  intros Hne. induction d as [|[k0 v0] d IH]; simpl.
  - destruct (String.eqb_spec k k'); [contradiction | reflexivity].
  - destruct (String.eqb_spec k0 k) as [->|Hk0]; simpl.
    + destruct (String.eqb_spec k k'); [contradiction | reflexivity].
    + destruct (String.eqb k0 k'); [reflexivity | exact IH].
Qed.

Lemma dict_get_set_same (d : dict) (k : string) (v : value) :
  dict_get (dict_set d k v) k = Some v.
Proof.
  induction d as [|[k0 v0] d IH]; simpl.
  - rewrite String.eqb_refl. reflexivity.
  - destruct (String.eqb_spec k0 k) as [->|Hk0]; simpl.
    + rewrite String.eqb_refl. reflexivity.
    + destruct (String.eqb_spec k0 k); [contradiction | exact IH].
Qed.

Lemma git_depths_listed (infos : dict) (state : value) (depth : Z) :
  is_notworking infos = false ->
  getitem infos "state" = Ok state ->
  git_depths state = Ok depth ->
  depth = 20 \/ depth = 40.
Proof.
  unfold is_notworking, getitem, git_depths. intros Hnw Hstate Hdepth.
  destruct (dict_get infos "state") as [st|]; [|discriminate].
  injection Hstate as ->.
  destruct (hashable state); [|discriminate]. injection Hdepth as <-.
  destruct state as [| | | |s| |]; auto.
  rewrite Hnw. destruct (String.eqb s "inprogress"); auto.
Qed.

Section Loops.

Variable git : forall c : GitCall, Disk -> result (answer c) * Disk.
Variable Pc : GitCall -> Prop.
Variable Pb : list (string * Document) -> Prop.

Let Inv := log_inv Pc Pb.

Lemma preserves_bind_lift {A B} (x : result A) (k : A -> M B) :
  (forall a, x = Ok a -> preserves Inv (k a)) ->
  preserves Inv (bind (lift x) k).
Proof.
  intros Hk s r s' H HI. rewrite bind_run in H. unfold lift in H.
  destruct x as [a|e].
  - eapply Hk; eauto.
  - injection H as _ <-. exact HI.
Qed.

Ltac step :=
  first
    [ apply preserves_ret | apply preserves_raise | apply preserves_lift
    | apply preserves_get_disk | apply preserves_git_repo_age
    | apply preserves_print | apply preserves_error
    | apply preserves_app_cache_folder_exists
    | apply preserves_record_logo_copy
    | apply preserves_call
    | apply preserves_bind; [|intro]
    | apply preserves_try_except; [|intro]
    | match goal with
      | |- preserves _ (if ?b then _ else _) => destruct b
      end ].

Lemma preserves_refresh_sequence (app : string) (infos : dict) :
  (forall c, call_app c = app -> clone_depth c = None -> Pc c) ->
  preserves Inv (refresh_sequence git app infos).
Proof.
  intros Hc. unfold refresh_sequence, Inv.
  repeat step; try (apply Hc; reflexivity).
Qed.

Lemma preserves_refresh_cache (app : string) (infos : dict) :
  (forall c, call_app c = app -> clone_depth c = None -> Pc c) ->
  preserves Inv (refresh_cache git app infos).
Proof.
  intros Hc. unfold refresh_cache, Inv.
  apply preserves_bind; [apply preserves_git_repo_age|]. intros age.
  destruct (younger_than age 3600); [apply preserves_ret|].
  apply preserves_try_except; [apply preserves_refresh_sequence; exact Hc|].
  intros e. apply preserves_bind; [apply preserves_git_repo_age|]. intros age'.
  destruct (younger_than age' (24 * 3600));
    [apply preserves_ret | apply preserves_raise].
Qed.

Lemma preserves_init_cache (app : string) (infos : dict) :
  (forall url state depth branch,
      getitem infos "state" = Ok state -> git_depths state = Ok depth ->
      Pc (CloneFrom url app depth branch)) ->
  preserves Inv (init_cache git app infos).
Proof.
  intros Hc. unfold init_cache.
  apply preserves_bind_lift. intros url _.
  apply preserves_bind_lift. intros state Hstate.
  apply preserves_bind_lift. intros depth Hdepth.
  apply (@preserves_call git Pc Pb
           (CloneFrom url app depth (get_default infos "branch" (VStr "master")))).
  eauto.
Qed.

(** What [refresh_items] may ask of git for the items it is given. *)
Lemma preserves_refresh_items (items : list (string * dict)) :
  (forall name infos c,
      In (name, infos) items -> call_app c = lower name ->
      (forall depth, clone_depth c = Some depth ->
                     exists state, getitem infos "state" = Ok state
                                   /\ git_depths state = Ok depth) ->
      Pc c) ->
  preserves Inv (refresh_items git items).
Proof.
  induction items as [|[name infos] rest IH]; intros Hc; simpl.
  - apply preserves_ret.
  - apply preserves_bind; [apply preserves_app_cache_folder_exists|].
    intros present.
    apply preserves_bind;
      [|intros ?; apply IH; intros; eapply Hc; eauto; right; auto].
    destruct (negb present).
    + apply preserves_try_except; [|intro; apply preserves_error].
      apply preserves_init_cache. intros url state depth branch Hs Hd.
      apply (Hc name infos); [left; reflexivity | reflexivity |].
      simpl. intros depth' E. injection E as <-. eauto.
    + apply preserves_try_except.
      * apply preserves_refresh_cache. intros c Happ Hnone.
        apply (Hc name infos); [left; reflexivity | exact Happ |].
        intros depth E. rewrite Hnone in E. discriminate.
      * intros e. apply preserves_bind; [apply preserves_error|].
        intros ?. apply preserves_raise.
Qed.

End Loops.

(* ================================================================== *)
(** ** The anatomy of an entry *)
(* ================================================================== *)

Lemma get_default_set_other (d : dict) (k k' : string) (v default : value) :
  k <> k' -> get_default (dict_set d k v) k' default = get_default d k' default.
Proof. intros H. unfold get_default. rewrite dict_get_set_other; auto. Qed.

Lemma getitem_set_other (d : dict) (k k' : string) (v : value) :
  k <> k' -> getitem (dict_set d k v) k' = getitem d k'.
Proof. intros H. unfold getitem. rewrite dict_get_set_other; auto. Qed.

Lemma getitem_set_same (d : dict) (k : string) (v : value) :
  getitem (dict_set d k v) k = Ok v.
Proof. unfold getitem. rewrite dict_get_set_same. reflexivity. Qed.

Lemma getitem_Ok (d : dict) (k : string) (v : value) :
  getitem d k = Ok v <-> dict_get d k = Some v.
Proof.
  unfold getitem. destruct (dict_get d k); split; intros H;
    try discriminate; injection H as ->; reflexivity.
Qed.

Section Entry.

Variable set_order : list value -> list value.
Variable py_repr : value -> string.

(** The resolution reads nothing of [infos] but the revision marker. *)
Lemma resolve_revision_marker (m : Mirror) (infos infos' : dict) :
  get_default infos' "revision" (VStr "HEAD")
  = get_default infos "revision" (VStr "HEAD") ->
  resolve_revision py_repr m infos' = resolve_revision py_repr m infos.
Proof. intros H. unfold resolve_revision. rewrite H. reflexivity. Qed.

(** Every field of a built entry, in terms of the mirror and of the
    descriptor as loaded. *)
Lemma app_dict_anatomy (app : string) (infos : dict) (m : Mirror)
  (entry : dict) :
  app_dict_of_mirror set_order py_repr app infos m = Ok entry ->
  exists added revision c manifest id url state unmaintained antifeatures_list,
    added_in_catalog m = Ok added
    /\ resolve_revision py_repr m infos = Ok revision
    /\ commit m (str_of_value py_repr revision) = Ok c
    /\ load_manifest app m = Ok manifest
    /\ subscript manifest "id" = Ok id
    /\ dict_get infos "url" = Some url
    /\ dict_get infos "state" = Some state
    /\ entry =
       [ ("id", id);
         ("git", VDict [ ("branch", get_default infos "branch" (VStr "master"));
                         ("revision", revision); ("url", url) ]);
         ("added_in_catalog", VInt added);
         ("lastUpdate", VInt (committed_date c));
         ("manifest", manifest);
         ("state", state);
         ("level", get_default infos "level" (VStr "?"));
         ("maintained", VBool (negb unmaintained));
         ("high_quality", get_default infos "high_quality" (VBool false));
         ("featured", get_default infos "featured" (VBool false));
         ("category", get_default infos "category" VNone);
         ("subtags", get_default infos "subtags" (VList []));
         ("potential_alternative_to",
           get_default infos "potential_alternative_to" (VList []));
         ("antifeatures", VList antifeatures_list) ].
Proof.
  unfold app_dict_of_mirror. intros H.
  apply rbind_Ok in H. destruct H as [added [Hadded H]].
  apply rbind_Ok in H. destruct H as [revision [Hrev H]].
  apply rbind_Ok in H. destruct H as [c [Hc H]].
  apply rbind_Ok in H. destruct H as [manifest [Hman H]].
  apply rbind_Ok in H. destruct H as [id [Hid H]].
  apply rbind_Ok in H. destruct H as [branch [Hbranch H]].
  apply rbind_Ok in H. destruct H as [revision' [Hrev' H]].
  apply rbind_Ok in H. destruct H as [url [Hurl H]].
  apply rbind_Ok in H. destruct H as [added' [Hadded' H]].
  apply rbind_Ok in H. destruct H as [state [Hstate H]].
  apply rbind_Ok in H. destruct H as [unmaintained [_ H]].
  apply rbind_Ok in H. destruct H as [declared [_ H]].
  apply rbind_Ok in H. destruct H as [keys [_ H]].
  apply rbind_Ok in H. destruct H as [all [_ H]].
  apply rbind_Ok in H. destruct H as [antifeatures_list [_ H]].
  injection H as <-.
  rewrite getitem_set_same in Hrev'. injection Hrev' as <-.
  rewrite getitem_set_other, getitem_set_same in Hbranch by discriminate.
  injection Hbranch as <-.
  rewrite !getitem_set_other in Hurl, Hstate by discriminate.
  rewrite getitem_set_other, getitem_set_other, getitem_set_same in Hadded'
    by discriminate.
  injection Hadded' as <-.
  rewrite (@resolve_revision_marker m infos) in Hrev
    by (rewrite !get_default_set_other by discriminate; reflexivity).
  apply getitem_Ok in Hurl, Hstate.
  exists added, revision, c, manifest, id, url, state, unmaintained,
    antifeatures_list.
  repeat (split; [assumption|]).
  rewrite !get_default_set_other by discriminate.
  reflexivity.
Qed.

End Entry.

(* ================================================================== *)
(** ** Dates in and out of text *)
(* ================================================================== *)

Lemma sign_or_digit_plain (c : ascii) :
  sign_or_digit c = true ->
  is_space c = false /\ Ascii.eqb c newline = false /\ Ascii.eqb c "+" = false.
Proof.
  destruct c as [[] [] [] [] [] [] [] []]; intros H;
    try discriminate H; repeat split; reflexivity.
Qed.

Lemma string_of_uint_digits (d : Decimal.uint) :
  all_chars sign_or_digit (NilEmpty.string_of_uint d) = true.
Proof. induction d; simpl; auto. Qed.

Lemma str_of_int_chars (z : Z) : all_chars sign_or_digit (str_of_int z) = true.
Proof.
  unfold str_of_int.
  destruct z as [|p|p]; simpl; [reflexivity | |];
    destruct (Pos.to_uint p); simpl; auto using string_of_uint_digits.
Qed.

Lemma first_line_plain (s : string) :
  all_chars sign_or_digit s = true -> first_line s = s.
Proof.
  induction s as [|c s IH]; simpl; intros H; [reflexivity|].
  apply andb_true_iff in H. destruct H as [Hc Hs].
  destruct (sign_or_digit_plain c Hc) as (_ & -> & _).
  rewrite IH by assumption. reflexivity.
Qed.

Lemma first_line_app (s t : string) :
  all_chars sign_or_digit s = true -> first_line (s ++ String newline t) = s.
Proof.
  induction s as [|c s IH]; simpl; intros H; [reflexivity|].
  apply andb_true_iff in H. destruct H as [Hc Hs].
  destruct (sign_or_digit_plain c Hc) as (_ & -> & _).
  rewrite IH by assumption. reflexivity.
Qed.

Lemma first_line_join_lines (x : string) (l : list string) :
  all_chars sign_or_digit x = true -> first_line (join_lines (x :: l)) = x.
Proof.
  intros H. destruct l as [|y l]; simpl.
  - apply first_line_plain. exact H.
  - apply first_line_app. exact H.
Qed.

Lemma lstrip_plain (s : string) :
  all_chars sign_or_digit s = true -> lstrip s = s.
Proof.
  destruct s as [|c s]; simpl; intros H; [reflexivity|].
  apply andb_true_iff in H. destruct H as [Hc _].
  destruct (sign_or_digit_plain c Hc) as (-> & _). reflexivity.
Qed.

Lemma rstrip_plain (s : string) :
  all_chars sign_or_digit s = true -> rstrip s = s.
Proof.
  induction s as [|c s IH]; simpl; intros H; [reflexivity|].
  apply andb_true_iff in H. destruct H as [Hc Hs].
  rewrite IH by assumption.
  destruct (sign_or_digit_plain c Hc) as (-> & _).
  destruct s; reflexivity.
Qed.

Lemma strip_plain (s : string) :
  all_chars sign_or_digit s = true -> strip s = s.
Proof.
  intros H. unfold strip. rewrite lstrip_plain, rstrip_plain; auto.
Qed.

(** What git prints for a date, [int] reads back. *)
Lemma int_of_str_of_int (z : Z) : int_of_str (str_of_int z) = Ok z.
Proof.
  unfold int_of_str. rewrite strip_plain by apply str_of_int_chars.
  pose proof (str_of_int_chars z) as Hchars.
  assert (Hparse : NilZero.int_of_string (str_of_int z) = Some (Z.to_int z)).
  { unfold str_of_int. apply NilZero.isi.
    - destruct z as [|p|p]; simpl; try discriminate.
      intros E. injection E as E. exact (DecimalPos.Unsigned.to_uint_nonnil p E).
    - destruct z as [|p|p]; simpl; try discriminate.
      intros E. injection E as E. exact (DecimalPos.Unsigned.to_uint_nonnil p E). }
  destruct (str_of_int z) as [|c s] eqn:Es.
  - simpl in Hparse. discriminate.
  - simpl in Hchars. apply andb_true_iff in Hchars. destruct Hchars as [Hc _].
    destruct (sign_or_digit_plain c Hc) as (_ & _ & Hplus).
    assert (Hshape :
              match String c s with
              | String "+" t' => option_map Z.of_uint (NilZero.uint_of_string t')
              | _ => option_map Z.of_int (NilZero.int_of_string (String c s))
              end = option_map Z.of_int (NilZero.int_of_string (String c s))).
    { destruct c as [[] [] [] [] [] [] [] []]; try reflexivity.
      discriminate Hplus. }
    rewrite Hshape, Hparse. simpl. rewrite DecimalZ.of_to. reflexivity.
Qed.

Lemma added_in_catalog_oldest (m : Mirror) (oldest : Commit)
  (newer : list Commit) :
  rev (cinny_commits m) = oldest :: newer ->
  added_in_catalog m = Ok (committed_date oldest).
Proof.
  unfold cinny_commits, added_in_catalog, log_G_dates. intros H.
  destruct (first_parent_log m) as [|c0 chain] eqn:Echain.
  - simpl in H. discriminate.
  - rewrite H. simpl map.
    rewrite first_line_join_lines by apply str_of_int_chars.
    apply int_of_str_of_int.
Qed.

Lemma added_in_catalog_none (m : Mirror) :
  cinny_commits m = [] ->
  added_in_catalog m =
  match first_parent_log m with
  | [] => Raise (GitCommandError "your current branch does not have any commits yet")
  | _ => Raise (ValueError "invalid literal for int() with base 10: ''")
  end.
Proof.
  unfold cinny_commits, added_in_catalog, log_G_dates. intros H.
  destruct (first_parent_log m) as [|c0 chain] eqn:Echain; [reflexivity|].
  rewrite H. reflexivity.
Qed.

(* ================================================================== *)
(** ** Building the entries and writing the projections *)
(* ================================================================== *)

Lemma Forall_rd_set (P : dict -> Prop) (rd : list (value * dict))
  (k : value) (entry : dict) :
  Forall (fun ke => P (snd ke)) rd -> P entry ->
  Forall (fun ke => P (snd ke)) (rd_set rd k entry).
Proof.
  intros Hrd He. induction Hrd as [|[k' e'] rd' Hk' Hrd' IH]; simpl.
  - constructor; auto.
  - destruct (key_eqb k' k); constructor; simpl; auto.
Qed.

Lemma error_run (msg : string) (s : State) :
  error msg s =
  (Ok tt, mkState (disk s)
                  (mkLog (git_calls (log s))
                         (console (log s) ++ ["[Applist builder error] " ++ msg])
                         (builds (log s)) (logo_copies (log s)))).
Proof. reflexivity. Qed.

Section Build.

Variable set_order : list value -> list value.
Variable py_repr : value -> string.

Lemma build_app_dict_run (app : string) (infos : dict) (s : State) :
  build_app_dict set_order py_repr app infos s =
  (match cache (disk s) app with
   | None => Raise (AssertionError ("No cache yet for " ++ app))
   | Some m => app_dict_of_mirror set_order py_repr app infos m
   end, s).
Proof.
  unfold build_app_dict, bind, get_disk.
  destruct (cache (disk s) app); reflexivity.
Qed.

(** One turn of the loop of [build_catalog]. *)
Lemma build_items_cons (name : string) (infos : dict)
  (rest : list (string * dict)) (rd : list (value * dict)) (s : State) :
  build_items set_order py_repr ((name, infos) :: rest) rd s =
  match fst (build_app_dict set_order py_repr (lower name) infos s) with
  | Raise e =>
      build_items set_order py_repr rest rd
        (snd (error ("Processing " ++ lower name ++ " failed: " ++ exn_str e) s))
  | Ok app_dict =>
      match getitem app_dict "id" with
      | Raise e => (Raise e, s)
      | Ok id =>
          if hashable id
          then build_items set_order py_repr rest (rd_set rd id app_dict) s
          else (Raise (TypeError "unhashable type"), s)
      end
  end.
Proof.
  simpl. rewrite bind_run. unfold try_except. rewrite bind_run.
  rewrite build_app_dict_run. simpl.
  destruct (match cache (disk s) (lower name) with
            | Some m => _ | None => _ end) as [app_dict|e]; simpl.
  - rewrite bind_run. unfold lift.
    destruct (getitem app_dict "id") as [id|e]; [|reflexivity].
    destruct (hashable id); reflexivity.
  - reflexivity.
Qed.

Lemma preserves_build_items (Pc : GitCall -> Prop)
  (Pb : list (string * Document) -> Prop)
  (items : list (string * dict)) :
  forall rd, preserves (log_inv Pc Pb) (build_items set_order py_repr items rd).
Proof.
  induction items as [|[name infos] rest IH]; intros rd.
  - apply preserves_ret.
  - intros s r s' H HI. rewrite build_items_cons in H.
    rewrite build_app_dict_run in H. simpl in H.
    destruct (match cache (disk s) (lower name) with
              | Some m => _ | None => _ end) as [app_dict|e].
    + destruct (getitem app_dict "id") as [id|e];
        [|injection H as _ <-; exact HI].
      destruct (hashable id); [|injection H as _ <-; exact HI].
      eapply IH; eauto.
    + eapply IH; [exact H|]. destruct HI; split; assumption.
Qed.

(** Every entry of [result_dict] was built from an item of the loop, on the
    mirror found under its lowered name. *)
Lemma build_items_entries (P : dict -> Prop) (items : list (string * dict)) :
  forall rd s rd' s',
    build_items set_order py_repr items rd s = (Ok rd', s') ->
    Forall (fun ke => P (snd ke)) rd ->
    (forall name infos m entry,
        In (name, infos) items -> cache (disk s) (lower name) = Some m ->
        app_dict_of_mirror set_order py_repr (lower name) infos m = Ok entry ->
        P entry) ->
    Forall (fun ke => P (snd ke)) rd'.
Proof.
  induction items as [|[name infos] rest IH]; intros rd s rd' s' H Hrd HP.
  - injection H as <- _. exact Hrd.
  - rewrite build_items_cons, build_app_dict_run in H. simpl in H.
    destruct (cache (disk s) (lower name)) as [m|] eqn:Em.
    + destruct (app_dict_of_mirror set_order py_repr (lower name) infos m)
        as [app_dict|e] eqn:Eb.
      * destruct (getitem app_dict "id") as [id|e]; [|discriminate].
        destruct (hashable id); [|discriminate].
        eapply IH; [exact H | | intros; eapply HP; eauto; right; auto].
        apply Forall_rd_set; [exact Hrd|].
        eapply HP; eauto. left; reflexivity.
      * eapply IH; [exact H | exact Hrd |].
        intros; eapply HP; eauto. right; auto.
    + eapply IH; [exact H | exact Hrd |].
      intros; eapply HP; eauto. right; auto.
Qed.

End Build.

Section Projections.

Variable float_of_text : string -> option pyfloat.

Lemma manifest_v1_entries_In (rd l : list (value * dict)) :
  manifest_v1_entries float_of_text rd = Ok l ->
  forall ke, In ke l <->
             In ke rd /\ exists pf, packaging_format float_of_text (snd ke) = Ok pf
                                    /\ below_2 pf = true.
Proof.
  revert l. induction rd as [|[name infos] rd IH]; simpl; intros l H ke.
  - injection H as <-. simpl. tauto.
  - apply rbind_Ok in H. destruct H as [pf [Hpf H]].
    apply rbind_Ok in H. destruct H as [kept [Hkept H]].
    injection H as <-. specialize (IH kept Hkept ke).
    destruct (below_2 pf) eqn:Eb; simpl; rewrite IH; split.
    + intros [<- | [Hin Hex]]; [|tauto]. split; [auto|]. exists pf. auto.
    + intros [[<- | Hin] Hex]; tauto.
    + tauto.
    + intros [[<- | Hin] [pf' [Hpf' Hb]]]; [|split; eauto].
      simpl in Hpf'. rewrite Hpf in Hpf'. injection Hpf' as <-.
      rewrite Eb in Hb. discriminate.
Qed.

Lemma map_entries_Forall2 (f : dict -> result dict) (rd l : list (value * dict)) :
  map_entries f rd = Ok l ->
  Forall2 (fun ke ke' => fst ke' = fst ke /\ f (snd ke) = Ok (snd ke')) rd l.
Proof.
  revert l. induction rd as [|[k entry] rd IH]; simpl; intros l H.
  - injection H as <-. constructor.
  - apply rbind_Ok in H. destruct H as [entry' [He H]].
    apply rbind_Ok in H. destruct H as [rest [Hrest H]].
    injection H as <-. constructor; auto.
Qed.

Lemma add_logo_hashes_Forall2 (rd : list (value * dict)) :
  forall s l s',
    add_logo_hashes rd s = (Ok l, s') ->
    Forall2 (fun ke ke' =>
               fst ke' = fst ke
               /\ exists h, snd ke' = dict_set (snd ke) "logo_hash" h) rd l.
Proof.
  induction rd as [|[appid app] rd IH]; simpl; intros s l s' H.
  - injection H as <- _. constructor.
  - destruct appid as [| | | |appid_text| |]; try discriminate.
    rewrite bind_run in H. simpl in H. rewrite bind_run in H.
    destruct (logos (disk s) (lower appid_text)) as [digest|].
    + rewrite bind_run in H. simpl in H. rewrite bind_run in H.
      destruct (add_logo_hashes rd _) as [[rest|e] s1] eqn:Er; [|discriminate].
      injection H as <- _. constructor; [simpl; eauto | eapply IH; eauto].
    + simpl in H. rewrite bind_run in H.
      destruct (add_logo_hashes rd _) as [[rest|e] s1] eqn:Er; [|discriminate].
      injection H as <- _. constructor; [simpl; eauto | eapply IH; eauto].
Qed.

Lemma preserves_add_logo_hashes (Pc : GitCall -> Prop)
  (Pb : list (string * Document) -> Prop) (rd : list (value * dict)) :
  preserves (log_inv Pc Pb) (add_logo_hashes rd).
Proof.
  induction rd as [|[appid app] rd IH]; simpl.
  - apply preserves_ret.
  - destruct appid; try apply preserves_raise.
    apply preserves_bind; [apply preserves_get_disk|]. intros d.
    apply preserves_bind.
    + destruct (logos d _).
      * apply preserves_bind; [apply preserves_record_logo_copy|].
        intros ?. apply preserves_ret.
      * apply preserves_ret.
    + intros h. apply preserves_bind; [exact IH|].
      intros ?. apply preserves_ret.
Qed.

Lemma doc_entries_In (rd l : list (value * dict)) :
  doc_entries rd = Ok l ->
  forall ke', In ke' l ->
              exists ke, In ke rd /\ fst ke' = fst ke
                         /\ infos_for_doc_catalog (snd ke) = Ok (snd ke')
                         /\ exists state, dict_get (snd ke) "state" = Some state
                                          /\ eq_str state "working" = true.
Proof.
  revert l. induction rd as [|[k v] rd IH]; simpl; intros l H ke' Hin.
  - injection H as <-. contradiction.
  - apply rbind_Ok in H. destruct H as [state [Hstate H]].
    apply getitem_Ok in Hstate.
    destruct (eq_str state "working") eqn:Ew.
    + apply rbind_Ok in H. destruct H as [summary [Hsum H]].
      apply rbind_Ok in H. destruct H as [rest [Hrest H]].
      injection H as <-. destruct Hin as [<- | Hin].
      * exists (k, v). simpl. eauto 8.
      * destruct (IH rest Hrest ke' Hin) as [ke [? ?]]. exists ke. auto.
    + destruct (IH l H ke' Hin) as [ke [? ?]]. exists ke. auto.
Qed.

Lemma write_json_run (path : string) (doc : Document) (s : State) :
  write_json path doc s =
  if sortable_keys (map fst (doc_apps doc))
  then (Ok tt, mkState (disk s)
                       (mkLog (git_calls (log s)) (console (log s))
                              (builds (log s) ++ [(path, doc)])
                              (logo_copies (log s))))
  else (Raise (TypeError "'<' not supported between instances"), s).
Proof. unfold write_json. destruct (sortable_keys _); reflexivity. Qed.

Lemma preserves_write_json (Pc : GitCall -> Prop)
  (Pb : list (string * Document) -> Prop) (path : string) (doc : Document) :
  (forall b, Pb b -> Pb (b ++ [(path, doc)])%list) ->
  preserves (log_inv Pc Pb) (write_json path doc).
Proof.
  intros Hstep s r s' H [Hcalls Hb]. rewrite write_json_run in H.
  destruct (sortable_keys _); injection H as _ <-; split; simpl; auto.
Qed.

End Projections.

(* ================================================================== *)
(** ** The state field through the projections *)
(* ================================================================== *)

Lemma is_notworking_true (infos : dict) :
  is_notworking infos = true <->
  dict_get infos "state" = Some (VStr "notworking").
Proof.
  unfold is_notworking.
  destruct (dict_get infos "state") as [[| | | |s| |]|];
    try (split; discriminate).
  split.
  - intros H. apply String.eqb_eq in H. subst. reflexivity.
  - intros H. injection H as ->. reflexivity.
Qed.

Lemma not_notworking_state (infos : dict) (state : value) :
  is_notworking infos = false -> dict_get infos "state" = Some state ->
  eq_str state "notworking" = false.
Proof.
  unfold is_notworking. intros H E. rewrite E in H.
  destruct state; simpl; auto.
Qed.

Lemma entry_not_notworking_set (entry : dict) (k : string) (v : value) :
  k <> "state" -> entry_not_notworking entry ->
  entry_not_notworking (dict_set entry k v).
Proof.
  intros Hk [state [E H]]. exists state.
  rewrite dict_get_set_other by assumption. auto.
Qed.

Section States.

Variable float_of_text : string -> option pyfloat.
Variable convert : dict -> result dict.

Lemma upgrade_manifest_state (app app' : dict) :
  upgrade_manifest float_of_text convert app = Ok app' ->
  entry_not_notworking app -> entry_not_notworking app'.
Proof.
  unfold upgrade_manifest. intros H Hok.
  apply rbind_Ok in H. destruct H as [pf [_ H]].
  destruct (below_2 pf); [|injection H as <-; exact Hok].
  apply rbind_Ok in H. destruct H as [manifest [_ H]].
  destruct manifest; try discriminate.
  apply rbind_Ok in H. destruct H as [m' [_ H]]. injection H as <-.
  apply entry_not_notworking_set; [discriminate | exact Hok].
Qed.

Lemma del_manifest_key_state (k : string) (app app' : dict) :
  del_manifest_key k app = Ok app' ->
  entry_not_notworking app -> entry_not_notworking app'.
Proof.
  unfold del_manifest_key. intros H Hok.
  destruct (dict_get app "manifest") as [manifest|];
    [|injection H as <-; exact Hok].
  apply rbind_Ok in H. destruct H as [present [_ H]].
  destruct present; [|injection H as <-; exact Hok].
  destruct manifest; try discriminate. injection H as <-.
  apply entry_not_notworking_set; [discriminate | exact Hok].
Qed.

Lemma strip_manifest_state (app app' : dict) :
  strip_manifest app = Ok app' ->
  entry_not_notworking app -> entry_not_notworking app'.
Proof.
  unfold strip_manifest. intros H Hok.
  apply rbind_Ok in H. destruct H as [app1 [H1 H2]].
  eapply del_manifest_key_state; [exact H2|].
  eapply del_manifest_key_state; eauto.
Qed.

Lemma infos_for_doc_catalog_state (infos summary : dict) :
  infos_for_doc_catalog infos = Ok summary ->
  dict_get summary "state" = dict_get infos "state".
Proof.
  unfold infos_for_doc_catalog. intros H.
  repeat (apply rbind_Ok in H; destruct H as [? [? H]]).
  injection H as <-. simpl.
  match goal with
  | E : getitem infos "state" = Ok _ |- _ => apply getitem_Ok in E; rewrite E
  end.
  reflexivity.
Qed.

Lemma Forall2_entries (P : dict -> Prop) (R : value * dict -> value * dict -> Prop)
  (rd l : list (value * dict)) :
  Forall2 R rd l ->
  (forall ke ke', R ke ke' -> P (snd ke) -> P (snd ke')) ->
  Forall (fun ke => P (snd ke)) rd -> Forall (fun ke => P (snd ke)) l.
Proof.
  intros HR Hstep. induction HR as [|ke ke' rd l Hke _ IH]; intros Hrd.
  - constructor.
  - inversion Hrd; subst. constructor; eauto.
Qed.

End States.

(* ================================================================== *)
(** ** Ages and the two windows *)
(* ================================================================== *)

Lemma int_of_Q_lt (q : Q) (n : Z) :
  0 < n -> (int_of_Q q < n <-> (q < inject_Z n)%Q).
Proof.
  intros Hn. destruct q as [a b]. unfold int_of_Q, Qlt. simpl.
  rewrite Z.mul_1_r.
  destruct (Z_lt_le_dec a 0) as [Hneg | Hpos].
  - split; intros _.
    + nia.
    + assert (a ÷ Z.pos b <= 0) by (apply Z.quot_le_upper_bound; lia). lia.
  - rewrite Z.quot_div_nonneg by lia. split; intros H.
    + pose proof (Z.mul_succ_div_gt a (Z.pos b) ltac:(lia)). nia.
    + apply Z.div_lt_upper_bound; lia.
Qed.

Lemma repo_age_fetch_head_age (d : Disk) (app : string) :
  repo_age d app = option_map int_of_Q (fetch_head_age d app).
Proof.
  unfold repo_age, fetch_head_age.
  destruct (cache d app) as [m|]; [destruct (fetch_head m)|]; reflexivity.
Qed.

(** The integer test of the program decides the exact age. *)
Lemma younger_than_spec (d : Disk) (app : string) (limit : Z) :
  0 < limit ->
  younger_than (repo_age d app) limit = true <->
  exists a, fetch_head_age d app = Some a /\ (a < inject_Z limit)%Q.
Proof.
  intros Hl. rewrite repo_age_fetch_head_age.
  destruct (fetch_head_age d app) as [a|]; simpl.
  - rewrite Z.ltb_lt, int_of_Q_lt by assumption. split.
    + intros H. exists a. auto.
    + intros [a' [E H]]. injection E as <-. exact H.
  - split; [discriminate | intros [a [E _]]; discriminate].
Qed.

(* ================================================================== *)
(** ** The handler of refresh_cache *)
(* ================================================================== *)

Section Grace.

Variable git : forall c : GitCall, Disk -> result (answer c) * Disk.

Lemma git_repo_age_run (app : string) (s : State) :
  git_repo_age app s = (Ok (repo_age (disk s) app), s).
Proof. reflexivity. Qed.

(** Once the mirror is not fresh, [refresh_cache] is its [try] block under
    the handler. *)
Lemma refresh_cache_stale (app : string) (infos : dict) (s : State) :
  younger_than (repo_age (disk s) app) 3600 = false ->
  refresh_cache git app infos s =
  match refresh_sequence git app infos s with
  | (Ok a, s') => (Ok a, s')
  | (Raise e, s') =>
      if younger_than (repo_age (disk s') app) (24 * 3600)
      then (Ok tt, s') else (Raise e, s')
  end.
Proof.
  intros Hstale. unfold refresh_cache, git_repo_age, get_disk, bind, ret.
  rewrite Hstale. unfold try_except.
  destruct (refresh_sequence git app infos s) as [[a|e] s']; [reflexivity|].
  destruct (younger_than (repo_age (disk s') app) (24 * 3600)); reflexivity.
Qed.

(** What the handler decides when the refresh sequence raises [e], leaving
    the machine in [s']: it reads the age of [FETCH_HEAD] as it is then.
    Under 24 hours the call returns normally; at 24 hours or more, or with
    no [FETCH_HEAD], the call raises [e]. *)
Lemma refresh_cache_handler
  (app : string) (infos : dict) (s s' : State) (e : exn) :
  younger_than (repo_age (disk s) app) 3600 = false ->
  refresh_sequence git app infos s = (Raise e, s') ->
  (forall a, fetch_head_age (disk s') app = Some a ->
             (a < inject_Z (24 * 3600))%Q ->
             refresh_cache git app infos s = (Ok tt, s'))
  /\ (forall a, fetch_head_age (disk s') app = Some a ->
                (inject_Z (24 * 3600) <= a)%Q ->
                refresh_cache git app infos s = (Raise e, s'))
  /\ (fetch_head_age (disk s') app = None ->
      refresh_cache git app infos s = (Raise e, s')).
Proof.
  intros Hstale Hseq. rewrite (refresh_cache_stale _ _ _ Hstale), Hseq.
  pose proof (younger_than_spec (disk s') app (limit := 24 * 3600) eq_refl)
    as Hspec.
  destruct (younger_than (repo_age (disk s') app) (24 * 3600)).
  - destruct (proj1 Hspec eq_refl) as [a0 [Ea0 Hlt]].
    split; [reflexivity|]. split.
    + intros a Ea Hle. rewrite Ea in Ea0. injection Ea0 as ->.
      exfalso. exact (Qlt_not_le _ _ Hlt Hle).
    + intros En. rewrite En in Ea0. discriminate.
  - split; [|split; reflexivity].
    intros a Ea Hlt.
    assert (false = true) by (apply Hspec; exists a; auto). discriminate.
Qed.

End Grace.

(* ================================================================== *)
(** ** C1: the grace window of refresh_cache *)
(* ================================================================== *)

(** C1, at an input where the program breaks it.  The clone of [b] was last
    fetched 25 hours ago and the remote cannot be reached.  The refresh
    sequence raises at its fetch (line 151); git has rewritten [FETCH_HEAD]
    before failing, so the handler reads an age of 0 seconds and the call
    returns normally, where a mirror that has not been updated for more than
    24 hours should have raised.  The whole run then ends normally with
    nothing on the console, and [b] is written to the three files from its
    stale mirror. *)
Lemma failed_fetch_of_a_stale_mirror_is_swallowed :
  fetch_head_age (Samples.disk_abc (25 * Samples.hour)%Q) "b"
  = Some (25 * Samples.hour - 0)%Q
  /\ fst (refresh_sequence (Samples.git_sample ["b"] []) "b" Samples.infos_b
            (Samples.start (Samples.disk_abc (25 * Samples.hour)%Q)))
     = Raise (GitCommandError "unable to access remote")
  /\ network_calls
       (log (snd (refresh_sequence (Samples.git_sample ["b"] []) "b"
                    Samples.infos_b
                    (Samples.start (Samples.disk_abc (25 * Samples.hour)%Q)))))
     = [FetchForce "b" (VStr "master")]
  /\ repo_age
       (disk (snd (refresh_sequence (Samples.git_sample ["b"] []) "b"
                     Samples.infos_b
                     (Samples.start (Samples.disk_abc (25 * Samples.hour)%Q)))))
       "b" = Some 0
  /\ fst (refresh_cache (Samples.git_sample ["b"] []) "b" Samples.infos_b
            (Samples.start (Samples.disk_abc (25 * Samples.hour)%Q)))
     = Ok tt
  /\ fst (Samples.run_abc ["b"] [] (25 * Samples.hour)%Q) = Ok tt
  /\ console (log (snd (Samples.run_abc ["b"] [] (25 * Samples.hour)%Q))) = []
  /\ Samples.written_keys (snd (Samples.run_abc ["b"] [] (25 * Samples.hour)%Q))
     = [ (v2_path, [VStr "b"; VStr "c"]);
         (v3_path, [VStr "a"; VStr "b"; VStr "c"]);
         (doc_path, [VStr "a"; VStr "b"; VStr "c"]) ].
Proof. repeat split; vm_compute; reflexivity. Qed.

(* ================================================================== *)
(** ** C5: two refreshes in succession *)
(* ================================================================== *)

Lemma bind_Ok {A B} (m : M A) (k : A -> M B) (s s' : State) (b : B) :
  bind m k s = (Ok b, s') ->
  exists a s1, m s = (Ok a, s1) /\ k a s1 = (Ok b, s').
Proof.
  rewrite bind_run. destruct (m s) as [[a|e] s1]; [eauto | discriminate].
Qed.

Lemma call_Ok (git : forall c : GitCall, Disk -> result (answer c) * Disk)
  (c : GitCall) (s s' : State) (a : answer c) :
  call git c s = (Ok a, s') ->
  git c (disk s) = (Ok a, disk s')
  /\ log s' = mkLog (git_calls (log s) ++ [c]) (console (log s))
                    (builds (log s)) (logo_copies (log s)).
Proof.
  rewrite call_run. intros H. injection H as H1 <-. simpl.
  split; [|reflexivity].
  destruct (git c (disk s)) as [r d']. simpl in *. subst r. reflexivity.
Qed.

Section Sequence.

Variable git : forall c : GitCall, Disk -> result (answer c) * Disk.

(** A refresh sequence that runs to its end: the calls it made, in order,
    its fetch and its reset. *)
Lemma refresh_sequence_Ok (app : string) (infos : dict) (s s' : State) :
  refresh_sequence git app infos s = (Ok tt, s') ->
  let branch := get_default infos "branch" (VStr "master") in
  exists url differs known d_fetch d_reset,
    dict_get infos "url" = Some url
    /\ git_calls (log s')
       = (git_calls (log s) ++ refresh_calls app url branch differs known)%list
    /\ builds (log s') = builds (log s)
    /\ console (log s') = console (log s)
    /\ git (FetchForce app branch) d_fetch = (Ok tt, d_reset)
    /\ git (ResetHardOrigin app branch) d_reset = (Ok tt, disk s')
    /\ ((forall c d, (clock d <= clock (snd (git c d)))%Q) ->
        (clock (disk s) <= clock d_fetch)%Q).
Proof.
  intros H branch. unfold refresh_sequence in H. fold branch in H.
  apply bind_Ok in H. destruct H as ([] & s1 & H1 & H).
  apply call_Ok in H1. destruct H1 as [G1 L1].
  apply bind_Ok in H. destruct H as ([] & s2 & H2 & H).
  apply call_Ok in H2. destruct H2 as [G2 L2].
  apply bind_Ok in H. destruct H as (url & s3 & H3 & H).
  unfold lift in H3. injection H3 as Hurl <-. apply getitem_Ok in Hurl.
  apply bind_Ok in H. destruct H as ([] & s4 & H4 & H).
  apply call_Ok in H4. destruct H4 as [G4 L4].
  apply bind_Ok in H. destruct H as (differs & s5 & H5 & H).
  apply call_Ok in H5. destruct H5 as [G5 L5].
  apply bind_Ok in H. destruct H as ([] & s6 & H6 & H).
  apply bind_Ok in H. destruct H as ([] & s7 & H7 & H8).
  apply call_Ok in H7. destruct H7 as [G7 L7].
  apply (@call_Ok git (ResetHardOrigin app branch) s7 s' tt) in H8.
  destruct H8 as [G8 L8].
  assert (Hswitch :
            exists known : bool,
              log s6 = mkLog (git_calls (log s5)
                                ++ (if (differs : bool) then
                                      Branches app
                                      :: (if known then [CheckoutForce app branch]
                                          else [RemoteSetBranchesAdd app branch;
                                                FetchBranchToBranch app branch])
                                    else []))%list
                             (console (log s5)) (builds (log s5))
                             (logo_copies (log s5))
              /\ ((forall c d, (clock d <= clock (snd (git c d)))%Q) ->
                  (clock (disk s5) <= clock (disk s6))%Q)).
  { destruct differs.
    - apply bind_Ok in H6. destruct H6 as (all_branches & s5a & Hb & H6).
      apply call_Ok in Hb. destruct Hb as [Gb Lb].
      exists (branch_in branch all_branches).
      destruct (branch_in branch all_branches).
      + apply (@call_Ok git (CheckoutForce app branch) s5a s6 tt) in H6.
        destruct H6 as [Gc Lc]. split.
        * rewrite Lc, Lb. simpl. rewrite <- app_assoc. reflexivity.
        * intros Hmono.
          pose proof (Hmono (Branches app) (disk s5)) as M1.
          pose proof (Hmono (CheckoutForce app branch) (disk s5a)) as M2.
          rewrite Gb in M1. rewrite Gc in M2. simpl in *.
          eapply Qle_trans; eauto.
      + apply bind_Ok in H6. destruct H6 as ([] & s5b & Hc & H6).
        apply call_Ok in Hc. destruct Hc as [Gc Lc].
        apply (@call_Ok git (FetchBranchToBranch app branch) s5b s6 tt) in H6.
        destruct H6 as [Gd Ld]. split.
        * rewrite Ld, Lc, Lb. simpl. rewrite <- !app_assoc. reflexivity.
        * intros Hmono.
          pose proof (Hmono (Branches app) (disk s5)) as M1.
          pose proof (Hmono (RemoteSetBranchesAdd app branch) (disk s5a)) as M2.
          pose proof (Hmono (FetchBranchToBranch app branch) (disk s5b)) as M3.
          rewrite Gb in M1. rewrite Gc in M2. rewrite Gd in M3. simpl in *.
          eapply Qle_trans; [exact M1|]. eapply Qle_trans; eauto.
    - exists false. injection H6 as <-. split.
      + rewrite app_nil_r. destruct (log s5). reflexivity.
      + intros _. apply Qle_refl. }
  destruct Hswitch as (known & L6 & M6).
  exists url, differs, known, (disk s6), (disk s7).
  split; [exact Hurl|].
  rewrite L8, L7, L6, L5, L4, L2, L1. simpl.
  split; [|split; [reflexivity|split; [reflexivity|]]].
  - unfold refresh_calls. rewrite <- !app_assoc. reflexivity.
  - split; [exact G7|]. split; [exact G8|].
    intros Hmono.
    pose proof (Hmono (RepoOpen app) (disk s)) as M1.
    pose proof (Hmono (RemoteOrigin app) (disk s1)) as M2.
    pose proof (Hmono (RemoteSetUrl app url) (disk s2)) as M4.
    pose proof (Hmono (ActiveBranchDiffers app branch) (disk s4)) as M5.
    rewrite G1 in M1. rewrite G2 in M2. rewrite G4 in M4. rewrite G5 in M5.
    simpl in *.
    eapply Qle_trans; [exact M1|]. eapply Qle_trans; [exact M2|].
    eapply Qle_trans; [exact M4|]. eapply Qle_trans; [exact M5|].
    exact (M6 Hmono).
Qed.

End Sequence.

(** The git of the samples keeps time as git does. *)
Lemma git_sample_keeps_time (down damaged : list string) :
  git_keeps_time (Samples.git_sample down damaged).
Proof.
  constructor.
  - intros c d. destruct c; simpl;
      try (destruct (existsb (String.eqb app) down));
      simpl; apply Qle_refl.
  - intros c d a H. destruct c; simpl;
      try (destruct (existsb (String.eqb app) down)); simpl; try exact H;
      (destruct (String.eqb a app); [|exact H]); try discriminate;
      (destruct (cache d a); [discriminate | exact H]).
  - intros c d Hf Hc. destruct c; try discriminate; simpl in *;
      unfold fetch_head_of, Samples.stamp_fetch_head; simpl;
      rewrite String.eqb_refl;
      (destruct (cache d app); [|contradiction]);
      simpl; exists (clock d); (split; [reflexivity | apply Qle_refl]).
  - intros app branch d. reflexivity.
Qed.

Section Throttle.

Variable git : forall c : GitCall, Disk -> result (answer c) * Disk.

Lemma network_calls_call (c : GitCall) (s : State) :
  network_calls (log (snd (call git c s)))
  = (network_calls (log s) ++ (if is_network c then [c] else []))%list.
Proof.
  rewrite call_run. unfold network_calls. simpl. rewrite filter_app. simpl.
  destruct (is_network c); reflexivity.
Qed.

Lemma disk_call (c : GitCall) (s : State) :
  disk (snd (call git c s)) = snd (git c (disk s)).
Proof. rewrite call_run. reflexivity. Qed.

Lemma tracks_start (app : string) (s : State) :
  cache (disk s) app <> None -> tracks app s [] s.
Proof.
  intros H. unfold tracks. rewrite app_nil_r.
  split; [reflexivity|]. split; [apply Qle_refl|]. split; [exact H|].
  intros N. contradiction N. reflexivity.
Qed.

Lemma tracks_quiet (Hgit : git_keeps_time git) (app : string) (s0 s : State)
  (c : GitCall) :
  is_network c = false ->
  tracks app s0 [] s -> tracks app s0 [] (snd (call git c s)).
Proof.
  intros Hc (Hn & Hk & Hcache & _).
  split; [rewrite network_calls_call, Hc, app_nil_r; exact Hn|].
  split; [rewrite disk_call; eapply Qle_trans;
          [exact Hk | apply (clock_forward Hgit)]|].
  split; [rewrite disk_call; apply (clone_stays Hgit); exact Hcache|].
  intros N. contradiction N. reflexivity.
Qed.

Lemma tracks_fetch (Hgit : git_keeps_time git) (app : string) (s0 s : State)
  (nets : list GitCall) (c : GitCall) :
  is_fetch c = true -> call_app c = app ->
  tracks app s0 nets s -> tracks app s0 (nets ++ [c]) (snd (call git c s)).
Proof.
  intros Hf Happ (Hn & Hk & Hcache & _).
  assert (Hnet : is_network c = true)
    by (destruct c; try discriminate; reflexivity).
  split; [rewrite network_calls_call, Hnet, Hn, <- app_assoc; reflexivity|].
  split; [rewrite disk_call; eapply Qle_trans;
          [exact Hk | apply (clock_forward Hgit)]|].
  split; [rewrite disk_call; apply (clone_stays Hgit); exact Hcache|].
  intros _. rewrite disk_call. subst app.
  destruct (fetch_stamps Hgit c (disk s) Hf Hcache) as (t & Ht & Hle).
  exists t. split; [exact Ht | eapply Qle_trans; eauto].
Qed.

Lemma tracks_reset (Hgit : git_keeps_time git) (app : string) (branch : value)
  (s0 s : State) (nets : list GitCall) :
  tracks app s0 nets s ->
  tracks app s0 nets (snd (call git (ResetHardOrigin app branch) s)).
Proof.
  intros (Hn & Hk & Hcache & Hs).
  split; [rewrite network_calls_call; simpl; rewrite app_nil_r; exact Hn|].
  split; [rewrite disk_call; eapply Qle_trans;
          [exact Hk | apply (clock_forward Hgit)]|].
  split; [rewrite disk_call; apply (clone_stays Hgit); exact Hcache|].
  intros N. destruct (Hs N) as (t & Ht & Hle). exists t. split; [|exact Hle].
  rewrite disk_call, (reset_keeps Hgit). exact Ht.
Qed.

(** Lines 151 and 152. *)
Lemma tracks_fetch_and_reset (Hgit : git_keeps_time git) (app : string)
  (branch : value) (s0 s : State) (nets : list GitCall) :
  tracks app s0 nets s ->
  tracks app s0 (nets ++ [FetchForce app branch])
         (snd (bind (call git (FetchForce app branch))
                    (fun _ => call git (ResetHardOrigin app branch)) s)).
Proof.
  intros T. rewrite bind_run.
  pose proof (@tracks_fetch Hgit app s0 s nets (FetchForce app branch)
                            eq_refl eq_refl T) as T'.
  destruct (call git (FetchForce app branch) s) as [[a|e] s'];
    cbn [snd] in T'; cbv beta iota.
  - apply tracks_reset; assumption.
  - exact T'.
Qed.

(** What a refresh sequence leaves, whether it runs to its end or raises on
    the way: at most two fetches, and a [FETCH_HEAD] written during the
    sequence as soon as one fetch was made. *)
Lemma refresh_sequence_tracks (Hgit : git_keeps_time git) (app : string)
  (infos : dict) (s : State) :
  cache (disk s) app <> None ->
  exists nets,
    In nets (fetches_of_a_refresh app (get_default infos "branch" (VStr "master")))
    /\ tracks app s nets (snd (refresh_sequence git app infos s)).
Proof.
  intros Hcache. pose proof (tracks_start app s Hcache) as T0.
  unfold refresh_sequence. cbv zeta.
  set (branch := get_default infos "branch" (VStr "master")).
  rewrite bind_run.
  pose proof (@tracks_quiet Hgit app s s (RepoOpen app) eq_refl T0) as T1.
  destruct (call git (RepoOpen app) s) as [[a1|e] s1];
    cbn [snd] in T1; cbv beta iota;
    [|exists []; split; [left; reflexivity | exact T1]].
  rewrite bind_run.
  pose proof (@tracks_quiet Hgit app s s1 (RemoteOrigin app) eq_refl T1) as T2.
  destruct (call git (RemoteOrigin app) s1) as [[a2|e] s2];
    cbn [snd] in T2; cbv beta iota;
    [|exists []; split; [left; reflexivity | exact T2]].
  rewrite bind_run. unfold lift.
  destruct (getitem infos "url") as [url|e]; cbv beta iota;
    [|exists []; split; [left; reflexivity | exact T2]].
  rewrite bind_run.
  pose proof (@tracks_quiet Hgit app s s2 (RemoteSetUrl app url) eq_refl T2)
    as T3.
  destruct (call git (RemoteSetUrl app url) s2) as [[a3|e] s3];
    cbn [snd] in T3; cbv beta iota;
    [|exists []; split; [left; reflexivity | exact T3]].
  rewrite bind_run.
  pose proof (@tracks_quiet Hgit app s s3 (ActiveBranchDiffers app branch)
                            eq_refl T3) as T4.
  destruct (call git (ActiveBranchDiffers app branch) s3) as [[differs|e] s4];
    cbn [snd] in T4; cbv beta iota;
    [|exists []; split; [left; reflexivity | exact T4]].
  rewrite bind_run.
  destruct differs.
  - rewrite bind_run.
    pose proof (@tracks_quiet Hgit app s s4 (Branches app) eq_refl T4) as T5.
    destruct (call git (Branches app) s4) as [[all_branches|e] s5];
      cbn [snd] in T5; cbv beta iota;
      [|exists []; split; [left; reflexivity | exact T5]].
    destruct (branch_in branch all_branches).
    + pose proof (@tracks_quiet Hgit app s s5 (CheckoutForce app branch)
                                eq_refl T5) as T6.
      destruct (call git (CheckoutForce app branch) s5) as [[a6|e] s6];
        cbn [snd] in T6; cbv beta iota;
        [|exists []; split; [left; reflexivity | exact T6]].
      exists ([] ++ [FetchForce app branch])%list.
      split; [right; left; reflexivity|].
      apply tracks_fetch_and_reset; assumption.
    + rewrite bind_run.
      pose proof (@tracks_quiet Hgit app s s5 (RemoteSetBranchesAdd app branch)
                                eq_refl T5) as T6.
      destruct (call git (RemoteSetBranchesAdd app branch) s5) as [[a6|e] s6];
        cbn [snd] in T6; cbv beta iota;
        [|exists []; split; [left; reflexivity | exact T6]].
      pose proof (@tracks_fetch Hgit app s s6 [] (FetchBranchToBranch app branch)
                                eq_refl eq_refl T6) as T7.
      destruct (call git (FetchBranchToBranch app branch) s6) as [[a7|e] s7];
        cbn [snd] in T7; cbv beta iota;
        [|exists [FetchBranchToBranch app branch];
          split; [right; right; left; reflexivity | exact T7]].
      exists (([] ++ [FetchBranchToBranch app branch])
                ++ [FetchForce app branch])%list.
      split; [right; right; right; left; reflexivity|].
      apply tracks_fetch_and_reset; assumption.
  - unfold ret at 1. cbv beta iota.
    exists ([] ++ [FetchForce app branch])%list.
    split; [right; left; reflexivity|].
    apply tracks_fetch_and_reset; assumption.
Qed.

Lemma refresh_cache_fresh (app : string) (infos : dict) (s : State) :
  younger_than (repo_age (disk s) app) 3600 = true ->
  refresh_cache git app infos s = (Ok tt, s).
Proof.
  intros H. unfold refresh_cache, git_repo_age, get_disk, bind, ret.
  rewrite H. reflexivity.
Qed.

(** The handler leaves the machine as the [try] block left it. *)
Lemma refresh_cache_snd (app : string) (infos : dict) (s : State) :
  snd (refresh_cache git app infos s)
  = if younger_than (repo_age (disk s) app) 3600 then s
    else snd (refresh_sequence git app infos s).
Proof.
  destruct (younger_than (repo_age (disk s) app) 3600) eqn:E.
  - rewrite refresh_cache_fresh by assumption. reflexivity.
  - rewrite refresh_cache_stale by assumption.
    destruct (refresh_sequence git app infos s) as [[a|e] s']; [reflexivity|].
    destruct (younger_than (repo_age (disk s') app) (24 * 3600)); reflexivity.
Qed.

(** C5, as the program has it.  Two calls of [refresh_cache] on one clone,
    the second beginning less than 3600 seconds after the first began, with
    a git that rewrites [FETCH_HEAD] at every fetch, successful or not.  One
    call makes no fetch, one, or two (lines 149 and 151, when the branch is
    new to the clone).  If the first call made a fetch, the second reads an
    age of [FETCH_HEAD] below 3600 seconds and returns at once, leaving the
    machine as it found it: at most one of the two calls reaches the
    network. *)
Theorem at_most_one_of_two_refreshes_fetches
  (app : string) (infos infos' : dict) (s0 : State) (dt : Q) :
  git_keeps_time git ->
  cache (disk s0) app <> None ->
  (clock (disk (snd (refresh_cache git app infos s0))) + dt - clock (disk s0)
   < inject_Z 3600)%Q ->
  (exists fetches,
      In fetches
         (fetches_of_a_refresh app (get_default infos "branch" (VStr "master")))
      /\ network_calls (log (snd (refresh_cache git app infos s0)))
         = (network_calls (log s0) ++ fetches)%list)
  /\ (network_calls (log (snd (refresh_cache git app infos s0)))
      <> network_calls (log s0) ->
      (exists a,
          fetch_head_age
            (disk (elapse dt (snd (refresh_cache git app infos s0)))) app
          = Some a
          /\ (a < inject_Z 3600)%Q)
      /\ refresh_cache git app infos'
                       (elapse dt (snd (refresh_cache git app infos s0)))
         = (Ok tt, elapse dt (snd (refresh_cache git app infos s0)))).
Proof.
  intros Hgit Hcache. rewrite refresh_cache_snd.
  destruct (younger_than (repo_age (disk s0) app) 3600) eqn:Ey; intros Hdt.
  - split.
    + exists []. split; [left; reflexivity | rewrite app_nil_r; reflexivity].
    + intros N. contradiction N. reflexivity.
  - destruct (@refresh_sequence_tracks Hgit app infos s0 Hcache)
      as (nets & Hin & Hn & Hk & Hc1 & Hst).
    revert Hdt Hn Hk Hc1 Hst.
    generalize (snd (refresh_sequence git app infos s0)).
    intros s1 Hdt Hn Hk Hc1 Hst.
    split; [exists nets; split; assumption|].
    intros N.
    assert (Hnets : nets <> []).
    { intros ->. apply N. rewrite Hn, app_nil_r. reflexivity. }
    destruct (Hst Hnets) as (t & Ht & Hle).
    assert (Hage : exists a,
               fetch_head_age (disk (elapse dt s1)) app = Some a
               /\ (a < inject_Z 3600)%Q).
    { exists (clock (disk s1) + dt - t)%Q. split.
      - unfold fetch_head_age, elapse. simpl. unfold fetch_head_of in Ht.
        destruct (cache (disk s1) app) as [m|]; [|discriminate].
        rewrite Ht. reflexivity.
      - eapply Qle_lt_trans; [|exact Hdt].
        unfold Qminus. apply Qplus_le_r. apply Qopp_le_compat. exact Hle. }
    split; [exact Hage|].
    apply refresh_cache_fresh.
    apply (proj2 (younger_than_spec (disk (elapse dt s1)) app (limit := 3600)
                                    eq_refl)).
    exact Hage.
Qed.

End Throttle.

Lemma at_most_one_of_two_refreshes_fetches_witness :
  network_calls
    (log (snd (Samples.first_refresh [] [] Samples.infos_b
                                     (25 * Samples.hour)%Q)))
  = [FetchForce "b" (VStr "master")]
  /\ Samples.second_refresh [] [] Samples.infos_b (25 * Samples.hour)%Q 60%Q
     = (Ok tt,
        elapse 60%Q (snd (Samples.first_refresh [] [] Samples.infos_b
                                                (25 * Samples.hour)%Q))).
Proof.
  split; [vm_compute; reflexivity|].
  exact (proj2 (proj2 (@at_most_one_of_two_refreshes_fetches
                         (Samples.git_sample [] []) "b"
                         Samples.infos_b Samples.infos_b
                         (Samples.start (Samples.disk_abc (25 * Samples.hour)%Q))
                         60%Q
                         (git_sample_keeps_time [] [])
                         ltac:(simpl; discriminate)
                         ltac:(vm_compute; reflexivity))
                      ltac:(vm_compute; discriminate))).
Defined.

(** C5 as stated fails, at three inputs.  On a branch new to the clone one
    call alone fetches twice.  With a clone that no longer opens and a
    [FETCH_HEAD] two hours old, the first call is tolerated and the second,
    60 seconds later, reads an age of 7260 seconds and asks git again.  With
    the remote out of reach and a [FETCH_HEAD] five hours old, the fetch of
    the first call fails and is tolerated, and the second call, ten minutes
    later, is skipped although no fetch has succeeded: the age it reads is
    that of the file the failed fetch rewrote. *)
Lemma refresh_twice_is_not_as_claimed :
  network_calls
    (log (snd (Samples.first_refresh [] [] Samples.infos_b_testing
                                     (25 * Samples.hour)%Q)))
  = [ FetchBranchToBranch "b" (VStr "testing");
      FetchForce "b" (VStr "testing") ]
  /\ fst (Samples.first_refresh [] ["b"] Samples.infos_b (2 * Samples.hour)%Q)
     = Ok tt
  /\ git_calls
       (log (snd (Samples.first_refresh [] ["b"] Samples.infos_b
                                        (2 * Samples.hour)%Q)))
     = [RepoOpen "b"]
  /\ repo_age
       (disk (elapse 60%Q
                (snd (Samples.first_refresh [] ["b"] Samples.infos_b
                                            (2 * Samples.hour)%Q)))) "b"
     = Some 7260
  /\ git_calls
       (log (snd (Samples.second_refresh [] ["b"] Samples.infos_b
                                         (2 * Samples.hour)%Q 60%Q)))
     = [RepoOpen "b"; RepoOpen "b"]
  /\ fst (refresh_sequence (Samples.git_sample ["b"] []) "b" Samples.infos_b
            (Samples.start (Samples.disk_abc (5 * Samples.hour)%Q)))
     = Raise (GitCommandError "unable to access remote")
  /\ fst (Samples.first_refresh ["b"] [] Samples.infos_b (5 * Samples.hour)%Q)
     = Ok tt
  /\ repo_age
       (disk (elapse 600%Q
                (snd (Samples.first_refresh ["b"] [] Samples.infos_b
                                            (5 * Samples.hour)%Q)))) "b"
     = Some 600
  /\ git_calls
       (log (snd (Samples.second_refresh ["b"] [] Samples.infos_b
                                         (5 * Samples.hour)%Q 600%Q)))
     = git_calls
         (log (snd (Samples.first_refresh ["b"] [] Samples.infos_b
                                          (5 * Samples.hour)%Q))).
Proof. repeat split; vm_compute; reflexivity. Qed.

(* ================================================================== *)
(** ** C9: packages in state "notworking" *)
(* ================================================================== *)

Section Notworking.

Variable git : forall c : GitCall, Disk -> result (answer c) * Disk.
Variable set_order : list value -> list value.
Variable float_of_text : string -> option pyfloat.
Variable py_repr : value -> string.
Variable convert : dict -> result dict.
Variable categories : value.
Variable antifeatures : value.
Variable apps_toml : list (string * dict).

Let Inv : State -> Prop :=
  log_inv (serves_listed_package apps_toml)
          (Forall document_without_notworking).

Lemma refresh_all_caches_serves :
  preserves Inv (refresh_all_caches git apps_toml).
Proof.
  unfold refresh_all_caches. apply preserves_for_progressbar.
  apply preserves_refresh_items.
  intros name infos c Hin Happ Hdepth.
  apply In_sorted_items, In_catalog in Hin. destruct Hin as [Hin Hnw].
  split; [exists name, infos; auto|].
  intros depth E. destruct (Hdepth depth E) as [state [Hs Hd]].
  eapply git_depths_listed; eauto.
Qed.

Lemma built_entries_not_notworking (rd : list (value * dict)) (s s' : State) :
  build_items set_order py_repr (sorted_items (catalog apps_toml)) [] s
  = (Ok rd, s') ->
  Forall (fun ke => entry_not_notworking (snd ke)) rd.
Proof.
  intros H. eapply build_items_entries; [exact H | constructor |].
  intros name infos m entry Hin _ Hbuilt.
  apply In_sorted_items, In_catalog in Hin. destruct Hin as [_ Hnw].
  apply app_dict_anatomy in Hbuilt.
  destruct Hbuilt as (added & revision & c & manifest & id & url & state
                      & unmaintained & l & _ & _ & _ & _ & _ & _ & Hstate & ->).
  exists state. split; [reflexivity|].
  eapply not_notworking_state; eauto.
Qed.

Lemma document_appended (path : string) (apps : list (value * dict))
  (cats : value) (anti : option value) (b : list (string * Document)) :
  Forall (fun ke => entry_not_notworking (snd ke)) apps ->
  Forall document_without_notworking b ->
  Forall document_without_notworking (b ++ [(path, mkDocument apps cats anti)]).
Proof.
  intros Happs Hb. apply Forall_app. split; [exact Hb|].
  constructor; [exact Happs | constructor].
Qed.

Lemma write_projections_not_notworking (rd : list (value * dict)) :
  Forall (fun ke => entry_not_notworking (snd ke)) rd ->
  preserves Inv
    (write_projections float_of_text convert categories antifeatures rd).
Proof.
  intros Hrd. unfold write_projections, Inv.
  apply preserves_bind_lift. intros v1 Hv1.
  apply preserves_bind.
  { apply preserves_write_json. intros b. apply document_appended.
    apply Forall_forall. intros ke Hin.
    eapply manifest_v1_entries_In in Hin; [|exact Hv1]. destruct Hin as [Hin _].
    exact (proj1 (Forall_forall _ _) Hrd ke Hin). }
  intros ?. apply preserves_bind_lift. intros upgraded Hup.
  apply preserves_bind_lift. intros stripped Hst.
  assert (Hstripped : Forall (fun ke => entry_not_notworking (snd ke)) stripped).
  { eapply Forall2_entries; [eapply map_entries_Forall2; exact Hst | |].
    - intros ke ke' [_ E]. eapply strip_manifest_state; eauto.
    - eapply Forall2_entries; [eapply map_entries_Forall2; exact Hup | | exact Hrd].
      intros ke ke' [_ E]. eapply upgrade_manifest_state; eauto. }
  intros s r s' H HI. rewrite bind_run in H.
  destruct (add_logo_hashes stripped s) as [[v2|e] s1] eqn:Elogo.
  2:{ injection H as _ <-. eapply preserves_add_logo_hashes; eauto. }
  assert (HI1 : log_inv (serves_listed_package apps_toml)
                        (Forall document_without_notworking) s1)
    by (eapply preserves_add_logo_hashes; eauto).
  assert (Hv2 : Forall (fun ke => entry_not_notworking (snd ke)) v2).
  { eapply Forall2_entries;
      [eapply add_logo_hashes_Forall2; exact Elogo | | exact Hstripped].
    intros ke ke' [_ [h ->]].
    apply entry_not_notworking_set. discriminate. }
  revert H HI1. generalize s1. clear s HI Elogo. intros s H HI.
  revert s r s' H HI.
  change (preserves (log_inv (serves_listed_package apps_toml)
                             (Forall document_without_notworking))
            (bind (write_json v3_path (mkDocument v2 categories (Some antifeatures)))
                  (fun _ => bind (lift (doc_entries rd))
                              (fun result_dict_doc =>
                                 write_json doc_path
                                   (mkDocument result_dict_doc categories None))))).
  apply preserves_bind.
  { apply preserves_write_json. intros b. apply document_appended. exact Hv2. }
  intros ?. apply preserves_bind_lift. intros docs Hdocs.
  apply preserves_write_json. intros b. apply document_appended.
  apply Forall_forall. intros ke' Hin.
  eapply doc_entries_In in Hin; [|exact Hdocs].
  destruct Hin as (ke & _ & _ & Hsum & state & Hstate & Hworking).
  exists state. erewrite infos_for_doc_catalog_state by exact Hsum.
  split; [exact Hstate|].
  destruct state; try discriminate. simpl in *.
  apply String.eqb_eq in Hworking. subst. reflexivity.
Qed.

Lemma main_serves : preserves Inv
  (main git set_order float_of_text py_repr convert categories antifeatures
        apps_toml).
Proof.
  unfold main. apply preserves_bind; [apply refresh_all_caches_serves|].
  intros ?. unfold build_catalog.
  destruct (sorted_items (catalog apps_toml)) as [|item items] eqn:Eitems.
  { intros s r s' H HI. rewrite bind_run, for_progressbar_empty in H.
    injection H as _ <-. exact HI. }
  rewrite for_progressbar_items by discriminate. rewrite <- Eitems.
  intros s r s' H HI. rewrite bind_run in H.
  destruct (build_items set_order py_repr _ [] s) as [[rd|e] s1] eqn:Eb.
  - eapply write_projections_not_notworking; [| exact H |].
    + eapply built_entries_not_notworking; eauto.
    + eapply preserves_build_items; eauto.
  - injection H as _ <-. eapply preserves_build_items; eauto.
Qed.

(** C9.  A package whose state is "notworking" is not in the catalog the
    run works on.  Hence, in a whole run of the program from an empty log,
    every call made to git works on the clone of a package of [apps.toml]
    that is not "notworking", no clone is created with depth 5, the depth
    [git_depths] keeps for that state (the depth is 20 or 40), and no entry
    of any document written is in state "notworking". *)
Theorem notworking_packages_never_processed (d : Disk) :
  let s' := snd (main git set_order float_of_text py_repr convert categories
                      antifeatures apps_toml (mkState d empty_log)) in
  (forall name infos,
      In (name, infos) (catalog apps_toml) <->
      In (name, infos) apps_toml
      /\ dict_get infos "state" <> Some (VStr "notworking"))
  /\ Forall (serves_listed_package apps_toml) (git_calls (log s'))
  /\ git_depths (VStr "notworking") = Ok 5
  /\ (forall c depth, In c (git_calls (log s')) ->
                      clone_depth c = Some depth -> depth <> 5)
  /\ Forall document_without_notworking (builds (log s')).
Proof.
  intros s'.
  assert (HI : Inv s').
  { eapply main_serves; [apply surjective_pairing|].
    split; constructor. }
  destruct HI as [Hcalls Hbuilds].
  split; [|split; [exact Hcalls | split; [reflexivity | split; [|exact Hbuilds]]]].
  - intros name infos. rewrite In_catalog.
    rewrite <- is_notworking_true.
    destruct (is_notworking infos); intuition congruence.
  - intros c depth Hin Hdepth.
    destruct (proj1 (Forall_forall _ _) Hcalls c Hin) as [_ Hd].
    destruct (Hd depth Hdepth); lia.
Qed.

End Notworking.

(* ================================================================== *)
(** ** C2: a fatal refresh failure *)
(* ================================================================== *)

Section FatalRefresh.

Variable git : forall c : GitCall, Disk -> result (answer c) * Disk.

Lemma refresh_items_app (pre rest : list (string * dict)) (s : State) :
  refresh_items git (pre ++ rest) s =
  match refresh_items git pre s with
  | (Ok _, s1) => refresh_items git rest s1
  | (Raise e, s1) => (Raise e, s1)
  end.
Proof.
  revert s. induction pre as [|[name infos] pre IH]; intros s.
  - reflexivity.
  - simpl. rewrite !bind_run.
    destruct (app_cache_folder_exists (lower name) s) as [[present|e] s0];
      [|reflexivity].
    rewrite !bind_run.
    match goal with
    | |- context [(if negb present then ?a else ?b) s0] =>
        destruct ((if negb present then a else b) s0) as [[[]|e] s1]
    end; [apply IH | reflexivity].
Qed.

(** The turn of the loop for a package whose clone exists and whose
    refresh raises. *)
Lemma refresh_items_fatal (name : string) (infos : dict)
  (post : list (string * dict)) (s s' : State) (e : exn) :
  cache (disk s) (lower name) <> None ->
  refresh_cache git (lower name) infos s = (Raise e, s') ->
  refresh_items git ((name, infos) :: post) s =
  (Raise e,
   snd (error ("Failed to not refresh cache for " ++ lower name ++ ": "
                 ++ exn_str e) s')).
Proof.
  intros Hcache Hrefresh. simpl. rewrite bind_run.
  unfold app_cache_folder_exists at 1. rewrite bind_run. simpl.
  destruct (cache (disk s) (lower name)); [|contradiction]. simpl.
  rewrite bind_run. unfold try_except. rewrite Hrefresh.
  rewrite bind_run. reflexivity.
Qed.

End FatalRefresh.

Section FatalRefreshRun.

Variable git : forall c : GitCall, Disk -> result (answer c) * Disk.
Variable set_order : list value -> list value.
Variable float_of_text : string -> option pyfloat.
Variable py_repr : value -> string.
Variable convert : dict -> result dict.
Variable categories : value.
Variable antifeatures : value.
Variable apps_toml : list (string * dict).

(** C2, as the program has it.  When the refresh of the mirror of one
    package fails fatally, [refresh_all_caches] prints the report and raises
    the failure again: the run ends there with that exception.  Nothing is
    asked of git for any later package, [build_catalog] does not run, and no
    projection is written. *)
Theorem fatal_refresh_failure_ends_the_run
  (pre post : list (string * dict)) (name : string) (infos : dict)
  (s0 s1 s2 : State) (e : exn) :
  sorted_items (catalog apps_toml) = (pre ++ (name, infos) :: post)%list ->
  refresh_items git pre s0 = (Ok tt, s1) ->
  cache (disk s1) (lower name) <> None ->
  refresh_cache git (lower name) infos s1 = (Raise e, s2) ->
  exists s3,
    main git set_order float_of_text py_repr convert categories antifeatures
         apps_toml s0 = (Raise e, s3)
    /\ console (log s3) =
       (console (log s2)
          ++ [("[Applist builder error] Failed to not refresh cache for "
                 ++ lower name ++ ": " ++ exn_str e)%string])%list
    /\ git_calls (log s3) = git_calls (log s2)
    /\ builds (log s3) = builds (log s0)
    /\ disk s3 = disk s2.
Proof.
  intros Hitems Hpre Hcache Hrefresh.
  eexists. split.
  - unfold main, refresh_all_caches. rewrite bind_run, Hitems.
    rewrite for_progressbar_items by (destruct pre; discriminate).
    rewrite refresh_items_app, Hpre.
    rewrite (@refresh_items_fatal git name infos post s1 s2 e Hcache Hrefresh).
    reflexivity.
  - simpl. repeat split.
    assert (Hkeep : forall (items : list (string * dict)),
               preserves (log_inv (fun _ => True) (eq (builds (log s0))))
                         (refresh_items git items)).
    { intros items. apply preserves_refresh_items. auto. }
    assert (H1 : log_inv (fun _ => True) (eq (builds (log s0))) s1).
    { eapply Hkeep; [exact Hpre|]. split; [|reflexivity].
      apply Forall_forall. auto. }
    assert (H2 : log_inv (fun _ => True) (eq (builds (log s0))) s2).
    { eapply preserves_refresh_cache; [| exact Hrefresh | exact H1]. auto. }
    destruct H2 as [_ H2]. symmetry. exact H2.
Qed.

End FatalRefreshRun.

Lemma fatal_refresh_failure_ends_the_run_witness :
  exists s3,
    Samples.run_abc [] ["b"] (25 * Samples.hour)%Q
    = (Raise (OtherError "InvalidGitRepositoryError"), s3)
    /\ builds (log s3) = [].
Proof.
  pose (git := Samples.git_sample [] ["b"]).
  pose (s0 := Samples.start (Samples.disk_abc (25 * Samples.hour)%Q)).
  pose (pre := [("a", Samples.infos_of "https://example.org/a" [])]).
  pose (post := [("c", Samples.infos_of "https://example.org/c" [])]).
  pose (s1 := snd (refresh_items git pre s0)).
  pose (s2 := snd (refresh_cache git "b" Samples.infos_b s1)).
  destruct (@fatal_refresh_failure_ends_the_run
              git Samples.one_order Samples.no_float Samples.no_repr
              Samples.convert_keep (VList []) (VList []) Samples.apps_abc
              pre post "b" Samples.infos_b s0 s1 s2
              (OtherError "InvalidGitRepositoryError")
              eq_refl eq_refl ltac:(discriminate) eq_refl)
    as [s3 (Hmain & _ & _ & Hbuilds & _)].
  exists s3. split; [exact Hmain | exact Hbuilds].
Defined.

(** C2 as stated fails: the isolation does not hold for a refresh failure.
    With clones of [a], [b] and [c] whose [FETCH_HEAD] is 25 hours old and
    the clone of [b] damaged so that it no longer opens, the run ends with
    the failure of [b]: git is never asked anything about [c] and no file is
    written, so [a] and [c] are in no projection.  With every clone sound
    the same run writes the three files, with [a] and [c] in them. *)
Lemma isolation_fails_on_fatal_refresh :
  fst (Samples.run_abc [] ["b"] (25 * Samples.hour)%Q)
  = Raise (OtherError "InvalidGitRepositoryError")
  /\ existsb (fun c => String.eqb (call_app c) "c")
             (git_calls (log (snd (Samples.run_abc [] ["b"]
                                                   (25 * Samples.hour)%Q))))
     = false
  /\ Samples.written_keys (snd (Samples.run_abc [] ["b"] (25 * Samples.hour)%Q))
     = []
  /\ Samples.written_keys (snd (Samples.run_abc [] [] (25 * Samples.hour)%Q))
     = [ (v2_path, [VStr "b"; VStr "c"]);
         (v3_path, [VStr "a"; VStr "b"; VStr "c"]);
         (doc_path, [VStr "a"; VStr "b"; VStr "c"]) ].
Proof. repeat split; vm_compute; reflexivity. Qed.

(* ================================================================== *)
(** ** C3 and C4: the resolved revision *)
(* ================================================================== *)

Lemma filter_head_first (f : Commit -> bool) (l : list Commit) (c : Commit)
  (rest : list Commit) :
  filter f l = c :: rest ->
  exists earlier later,
    l = (earlier ++ c :: later)%list
    /\ f c = true
    /\ Forall (fun c' => f c' = false) earlier.
Proof.
  induction l as [|a l IH]; simpl; intros H.
  - discriminate.
  - destruct (f a) eqn:Efa.
    + injection H as <- _. exists [], l. repeat split; auto.
    + destruct (IH H) as (earlier & later & -> & Hfc & Hearlier).
      exists (a :: earlier), later. repeat split; auto.
Qed.

Lemma filter_head_newest (f : Commit -> bool) (l : list Commit) (c : Commit)
  (rest : list Commit) :
  newest_first l -> filter f l = c :: rest ->
  In c l /\ f c = true
  /\ forall c', In c' l -> f c' = true -> committed_date c' <= committed_date c.
Proof.
  unfold newest_first. intros Hsorted. revert c rest.
  induction Hsorted as [|a l Hl IH Ha]; simpl; intros c rest H.
  - discriminate.
  - destruct (f a) eqn:Efa.
    + injection H as <- _. split; [auto|]. split; [exact Efa|].
      intros c' [<- | Hin] _; [lia|].
      exact (proj1 (Forall_forall _ _) Ha c' Hin).
    + destruct (IH c rest H) as (Hin & Hfc & Hmax).
      split; [auto|]. split; [exact Hfc|].
      intros c' [<- | Hin'] Hfc'; [congruence | auto].
Qed.

Lemma in_history_in_object_store (m : Mirror) (rev : string) :
  in_history m rev -> in_object_store m rev.
Proof.
  intros (c & Hin & Hsha). exists c. split; [|exact Hsha].
  unfold object_store. apply in_or_app. left. exact Hin.
Qed.

(** [repo.commit] on a full object name finds what the object store
    holds. *)
Lemma commit_full_object_name (m : Mirror) (rev : string) :
  full_object_name rev = true ->
  (in_object_store m rev -> exists c, commit m rev = Ok c)
  /\ (~ in_object_store m rev ->
      commit m rev = Raise (ValueError ("SHA " ++ rev ++ " could not be resolved")))
  /\ (forall c, commit m rev = Ok c -> in_object_store m rev).
Proof.
  intros Hfull. unfold commit. rewrite Hfull.
  destruct (find (fun c => String.eqb (hexsha c) rev) (object_store m))
    as [c|] eqn:Ef.
  - apply find_some in Ef. destruct Ef as [Hin Heq].
    apply String.eqb_eq in Heq.
    assert (Hstore : in_object_store m rev) by (exists c; auto).
    split; [eauto|]. split; [intros N; contradiction | auto].
  - assert (Hnot : ~ in_object_store m rev).
    { intros (c & Hin & Hsha).
      pose proof (find_none _ _ Ef c Hin) as Hc. simpl in Hc.
      rewrite Hsha, String.eqb_refl in Hc. discriminate. }
    split; [intros H; contradiction|]. split; [reflexivity | discriminate].
Qed.

(** On any other text it finds what the refs name. *)
Lemma commit_ref_name (m : Mirror) (rev : string) :
  full_object_name rev = false ->
  (names_a_ref m rev -> exists c, commit m rev = Ok c)
  /\ (~ names_a_ref m rev -> commit m rev = Raise (BadName rev))
  /\ (forall c, commit m rev = Ok c -> names_a_ref m rev).
Proof.
  intros Hfull. unfold commit. rewrite Hfull.
  destruct (find (fun r => String.eqb (fst r) rev) (refs m)) as [r|] eqn:Ef.
  - apply find_some in Ef. destruct Ef as [Hin Heq].
    apply String.eqb_eq in Heq.
    assert (Hname : names_a_ref m rev) by (exists r; auto).
    split; [eauto|]. split; [intros N; contradiction | auto].
  - assert (Hnot : ~ names_a_ref m rev).
    { intros (r & Hin & Hname).
      pose proof (find_none _ _ Ef r Hin) as Hr. simpl in Hr.
      rewrite Hname, String.eqb_refl in Hr. discriminate. }
    split; [intros H; contradiction|]. split; [reflexivity | discriminate].
Qed.

Section Revision.

Variable set_order : list value -> list value.
Variable py_repr : value -> string.

Lemma resolve_revision_latest (m : Mirror) (infos : dict) :
  eq_str (get_default infos "revision" (VStr "HEAD")) "HEAD" = true ->
  resolve_revision py_repr m infos =
  match iter_commits m relevant_files with
  | c :: _ => Ok (VStr (hexsha c))
  | [] => Raise StopIteration
  end.
Proof. intros H. unfold resolve_revision. rewrite H. reflexivity. Qed.

Lemma resolve_revision_pinned (m : Mirror) (infos : dict) (pin : value) :
  dict_get infos "revision" = Some pin -> eq_str pin "HEAD" = false ->
  resolve_revision py_repr m infos =
  match commit m (str_of_value py_repr pin) with
  | Ok _ => Ok pin
  | Raise (ValueError _) =>
      Raise (RuntimeError ("Revision ain't in history ? "
                             ++ str_of_value py_repr pin))
  | Raise e => Raise e
  end.
Proof.
  intros Hpin Hne. unfold resolve_revision, get_default.
  rewrite Hpin, Hne. reflexivity.
Qed.

Lemma entry_revision_built (app : string) (infos : dict) (m : Mirror)
  (entry : dict) :
  app_dict_of_mirror set_order py_repr app infos m = Ok entry ->
  exists revision c,
    resolve_revision py_repr m infos = Ok revision
    /\ entry_revision entry = Some revision
    /\ commit m (str_of_value py_repr revision) = Ok c
    /\ dict_get entry "lastUpdate" = Some (VInt (committed_date c)).
Proof.
  intros H. apply app_dict_anatomy in H.
  destruct H as (added & revision & c & manifest & id & url & state
                 & unmaintained & l & _ & Hrev & Hc & _ & _ & _ & _ & ->).
  exists revision, c. repeat split; assumption || reflexivity.
Qed.

(** C3, as the program has it.  For a package whose revision marker is
    "HEAD" (the default): the resolved revision is the name of the first
    commit, in the order in which git lists the history of all refs, that
    changes one of the seven meaningful paths, and no commit listed before
    it changes one; the resolution succeeds exactly when some commit of that
    history changes one, and raises [StopIteration] otherwise; that revision
    is the one a built entry carries.  It is a newest such commit when
    the list is newest first, which git does not promise. *)
Theorem latest_revision_is_first_listed_meaningful_commit
  (m : Mirror) (infos : dict) :
  eq_str (get_default infos "revision" (VStr "HEAD")) "HEAD" = true ->
  relevant_files = [ "manifest.json"; "manifest.toml"; "config_panel.toml";
                     "hooks/"; "scripts/"; "conf/"; "sources/" ]
  /\ (forall revision,
         resolve_revision py_repr m infos = Ok revision ->
         exists c, revision = VStr (hexsha c) /\ first_meaningful m c)
  /\ ((exists c, In c (rev_list_all m) /\ touches relevant_files c = true) ->
      exists revision, resolve_revision py_repr m infos = Ok revision)
  /\ ((forall c, In c (rev_list_all m) -> touches relevant_files c = false) ->
      resolve_revision py_repr m infos = Raise StopIteration)
  /\ (forall app entry,
         app_dict_of_mirror set_order py_repr app infos m = Ok entry ->
         exists c, entry_revision entry = Some (VStr (hexsha c))
                   /\ first_meaningful m c)
  /\ (newest_first (rev_list_all m) ->
      forall revision,
        resolve_revision py_repr m infos = Ok revision ->
        exists c, revision = VStr (hexsha c) /\ newest_meaningful m c).
Proof.
  intros Hhead.
  assert (Hres : forall revision,
             resolve_revision py_repr m infos = Ok revision ->
             exists c, revision = VStr (hexsha c) /\ first_meaningful m c).
  { intros revision H. rewrite resolve_revision_latest in H by assumption.
    unfold iter_commits in H.
    destruct (filter (touches relevant_files) (rev_list_all m))
      as [|c rest] eqn:Ef; [discriminate|].
    injection H as <-. exists c. split; [reflexivity|].
    exact (filter_head_first _ _ Ef). }
  split; [reflexivity|]. split; [exact Hres|]. split; [|split; [|split]].
  - intros (c & Hin & Htouch). rewrite resolve_revision_latest by assumption.
    unfold iter_commits.
    destruct (filter (touches relevant_files) (rev_list_all m))
      as [|c0 rest] eqn:Ef; [|eauto].
    assert (Hc : In c (filter (touches relevant_files) (rev_list_all m)))
      by (apply filter_In; auto).
    rewrite Ef in Hc. contradiction.
  - intros Hnone. rewrite resolve_revision_latest by assumption.
    unfold iter_commits.
    destruct (filter (touches relevant_files) (rev_list_all m))
      as [|c0 rest] eqn:Ef; [reflexivity|].
    assert (Hc : In c0 (filter (touches relevant_files) (rev_list_all m)))
      by (rewrite Ef; left; reflexivity).
    apply filter_In in Hc. destruct Hc as [Hin Htouch].
    rewrite (Hnone c0 Hin) in Htouch. discriminate.
  - intros app entry H. apply entry_revision_built in H.
    destruct H as (revision & c0 & Hrev & Hentry & _).
    destruct (Hres revision Hrev) as (c & -> & Hfirst). eauto.
  - intros Hsorted revision H.
    rewrite resolve_revision_latest in H by assumption.
    unfold iter_commits in H.
    destruct (filter (touches relevant_files) (rev_list_all m))
      as [|c rest] eqn:Ef; [discriminate|].
    injection H as <-. exists c. split; [reflexivity|].
    exact (filter_head_newest _ Hsorted Ef).
Qed.

(** C4, as the program has it.  For a package pinned to a revision other
    than "HEAD", the resolution never returns anything but the pin.  A pin
    that is a full object name is asked of the object store of the mirror:
    found there it is kept, and so in particular when it is in the history
    of a ref, but also when no ref reaches it any more; not found there, the
    resolution raises the [RuntimeError] "Revision ain't in history".  Any
    other pin is taken for the name of a ref: kept when a ref has that name,
    git's [BadName] otherwise.  A built entry carries the pin, and none is
    built when the resolution raises. *)
Theorem pinned_revision_is_checked_against_the_object_store
  (m : Mirror) (infos : dict) (pin : value) :
  dict_get infos "revision" = Some pin ->
  eq_str pin "HEAD" = false ->
  (forall revision,
      resolve_revision py_repr m infos = Ok revision -> revision = pin)
  /\ (full_object_name (str_of_value py_repr pin) = true ->
      (in_object_store m (str_of_value py_repr pin) ->
       resolve_revision py_repr m infos = Ok pin)
      /\ (in_history m (str_of_value py_repr pin) ->
          resolve_revision py_repr m infos = Ok pin)
      /\ (~ in_object_store m (str_of_value py_repr pin) ->
          resolve_revision py_repr m infos
          = Raise (RuntimeError ("Revision ain't in history ? "
                                   ++ str_of_value py_repr pin))))
  /\ (full_object_name (str_of_value py_repr pin) = false ->
      (names_a_ref m (str_of_value py_repr pin) ->
       resolve_revision py_repr m infos = Ok pin)
      /\ (~ names_a_ref m (str_of_value py_repr pin) ->
          resolve_revision py_repr m infos
          = Raise (BadName (str_of_value py_repr pin))))
  /\ (forall app entry,
         app_dict_of_mirror set_order py_repr app infos m = Ok entry ->
         entry_revision entry = Some pin
         /\ if full_object_name (str_of_value py_repr pin)
            then in_object_store m (str_of_value py_repr pin)
            else names_a_ref m (str_of_value py_repr pin))
  /\ (forall e app,
         resolve_revision py_repr m infos = Raise e ->
         exists e', app_dict_of_mirror set_order py_repr app infos m = Raise e').
Proof.
  intros Hpin Hne.
  pose proof (resolve_revision_pinned m infos Hpin Hne) as Hres.
  assert (Hkept : (exists c, commit m (str_of_value py_repr pin) = Ok c) ->
                  resolve_revision py_repr m infos = Ok pin).
  { intros [c Hc]. rewrite Hres, Hc. reflexivity. }
  assert (Honly : forall revision,
             resolve_revision py_repr m infos = Ok revision -> revision = pin).
  { intros revision H. rewrite Hres in H.
    destruct (commit m (str_of_value py_repr pin)) as [c|e].
    - injection H as <-. reflexivity.
    - destruct e; discriminate. }
  split; [exact Honly|]. split; [|split; [|split]].
  - intros Hfull.
    destruct (commit_full_object_name m _ Hfull) as (Hfound & Hmissing & _).
    split; [auto|]. split.
    + intros Hin. apply Hkept, Hfound, in_history_in_object_store, Hin.
    + intros Hnot. rewrite Hres, (Hmissing Hnot). reflexivity.
  - intros Hfull.
    destruct (commit_ref_name m _ Hfull) as (Hfound & Hmissing & _).
    split; [auto|].
    intros Hnot. rewrite Hres, (Hmissing Hnot). reflexivity.
  - intros app entry H. apply entry_revision_built in H.
    destruct H as (revision & c & Hrev & Hentry & Hc & _).
    pose proof (Honly revision Hrev) as ->.
    split; [exact Hentry|].
    destruct (full_object_name (str_of_value py_repr pin)) eqn:Hfull.
    + exact (proj2 (proj2 (commit_full_object_name m _ Hfull)) c Hc).
    + exact (proj2 (proj2 (commit_ref_name m _ Hfull)) c Hc).
  - intros e app He.
    destruct (app_dict_of_mirror set_order py_repr app infos m)
      as [entry|e'] eqn:Eb; [|eauto].
    apply entry_revision_built in Eb.
    destruct Eb as (revision & c & Hrev & _). congruence.
Qed.

End Revision.

Lemma latest_revision_is_first_listed_meaningful_commit_witness :
  exists c,
    resolve_revision Samples.no_repr Samples.mirror_b Samples.infos_b
    = Ok (VStr (hexsha c))
    /\ hexsha c = Samples.sha_b
    /\ first_meaningful Samples.mirror_b c.
Proof.
  destruct (@latest_revision_is_first_listed_meaningful_commit
              Samples.one_order Samples.no_repr Samples.mirror_b
              Samples.infos_b eq_refl)
    as (_ & Hres & _).
  destruct (Hres (VStr Samples.sha_b) eq_refl) as (c & E & Hfirst).
  exists c. injection E as E.
  split; [rewrite <- E; reflexivity|]. split; [symmetry; exact E | exact Hfirst].
Defined.

(** C3 as stated fails.  In a mirror whose tip carries committer date 1000
    and whose parent carries 2000, both changing meaningful paths, git lists
    the tip first and the resolution returns it, although the parent changes
    [manifest.toml] and is newer. *)
Lemma first_listed_commit_is_not_the_newest :
  resolve_revision Samples.no_repr Samples.mirror_skewed Samples.infos_b
  = Ok (VStr (hexsha Samples.commit_child))
  /\ In Samples.commit_parent (rev_list_all Samples.mirror_skewed)
  /\ touches relevant_files Samples.commit_parent = true
  /\ committed_date Samples.commit_child < committed_date Samples.commit_parent
  /\ ~ newest_meaningful Samples.mirror_skewed Samples.commit_child.
Proof.
  split; [reflexivity|]. split; [right; left; reflexivity|].
  split; [reflexivity|]. split; [reflexivity|].
  intros (_ & _ & Hmax).
  specialize (Hmax Samples.commit_parent (or_intror (or_introl eq_refl)) eq_refl).
  simpl in Hmax. lia.
Qed.

Lemma pinned_revision_is_checked_against_the_object_store_witness :
  resolve_revision Samples.no_repr Samples.mirror_b Samples.infos_b_pinned
  = Ok (VStr Samples.sha_a)
  /\ resolve_revision Samples.no_repr Samples.mirror_b Samples.infos_b_lost
     = Raise (RuntimeError ("Revision ain't in history ? " ++ Samples.sha_d)).
Proof.
  split.
  - refine (proj1 (proj1 (proj2 (@pinned_revision_is_checked_against_the_object_store
                                   Samples.one_order Samples.no_repr
                                   Samples.mirror_b Samples.infos_b_pinned
                                   (VStr Samples.sha_a) eq_refl eq_refl))
                         eq_refl) _).
    exists Samples.commit_import. split; [|reflexivity].
    right; right; left; reflexivity.
  - refine (proj2 (proj2 (proj1 (proj2 (@pinned_revision_is_checked_against_the_object_store
                                          Samples.one_order Samples.no_repr
                                          Samples.mirror_b Samples.infos_b_lost
                                          (VStr Samples.sha_d) eq_refl eq_refl))
                                eq_refl)) _).
    intros (c & Hin & Hsha). simpl in Hin.
    destruct Hin as [<- | [<- | [<- | []]]]; discriminate.
Defined.

(** C4 as stated fails.  After upstream rewrote its branch, the old tip is
    in the history of no ref of the mirror, but the object store still holds
    it: a package pinned to it resolves to the pin, and its entry is built
    from that commit, where the claim has the resolution raise. *)
Lemma pin_out_of_every_history_is_kept :
  ~ in_history Samples.mirror_b_rewritten Samples.sha_e
  /\ in_object_store Samples.mirror_b_rewritten Samples.sha_e
  /\ resolve_revision Samples.no_repr Samples.mirror_b_rewritten
                      Samples.infos_b_dropped
     = Ok (VStr Samples.sha_e)
  /\ exists entry,
      app_dict_of_mirror Samples.one_order Samples.no_repr "b"
                         Samples.infos_b_dropped Samples.mirror_b_rewritten
      = Ok entry
      /\ entry_revision entry = Some (VStr Samples.sha_e)
      /\ dict_get entry "lastUpdate" = Some (VInt 2000).
Proof.
  split.
  { intros (c & Hin & Hsha). simpl in Hin.
    destruct Hin as [<- | [<- | [<- | []]]]; discriminate. }
  split.
  { exists Samples.commit_dropped. split; [|reflexivity].
    right; right; right; left; reflexivity. }
  split; [reflexivity|].
  eexists. split; [vm_compute; reflexivity|].
  split; reflexivity.
Qed.

(* ================================================================== *)
(** ** C8 and C10: the two dates of an entry *)
(* ================================================================== *)

Section Dates.

Variable set_order : list value -> list value.
Variable py_repr : value -> string.

(** C8, as the program has it.  The [lastUpdate] of a built entry is the
    committer date ([committed_date]) of the commit its revision names. *)
Theorem lastUpdate_is_committed_date
  (app : string) (infos : dict) (m : Mirror) (entry : dict) :
  app_dict_of_mirror set_order py_repr app infos m = Ok entry ->
  exists revision c,
    entry_revision entry = Some revision
    /\ commit m (str_of_value py_repr revision) = Ok c
    /\ dict_get entry "lastUpdate" = Some (VInt (committed_date c)).
Proof.
  intros H. apply entry_revision_built in H.
  destruct H as (revision & c & _ & Hentry & Hc & Hlast). eauto.
Qed.

(** One turn of the loop of [build_catalog] for a package whose entry
    cannot be built: the report, and on to the next package. *)
Lemma build_items_skip (name : string) (infos : dict)
  (rest : list (string * dict)) (rd : list (value * dict)) (s : State)
  (m : Mirror) (e : exn) :
  cache (disk s) (lower name) = Some m ->
  app_dict_of_mirror set_order py_repr (lower name) infos m = Raise e ->
  build_items set_order py_repr ((name, infos) :: rest) rd s =
  build_items set_order py_repr rest rd
    (snd (error ("Processing " ++ lower name ++ " failed: " ++ exn_str e) s)).
Proof.
  intros Hcache Hbuilt. rewrite build_items_cons, build_app_dict_run.
  rewrite Hcache, Hbuilt. reflexivity.
Qed.

(** C10.  [added_in_catalog] is the committer date of the oldest commit of
    the first-parent chain of the package's own mirror whose diff matches
    the literal "cinny" under [apps.json] or [apps.toml], and a built entry
    carries it.  When the chain (of a mirror that has commits) has no such
    commit, parsing the empty text raises a [ValueError], no entry is built,
    and the loop of [build_catalog] reports the package and goes on with
    [result_dict] as it was. *)
Theorem added_in_catalog_from_cinny_log (m : Mirror) :
  (forall oldest newer,
      rev (cinny_commits m) = oldest :: newer ->
      added_in_catalog m = Ok (committed_date oldest)
      /\ forall app infos entry,
          app_dict_of_mirror set_order py_repr app infos m = Ok entry ->
          dict_get entry "added_in_catalog"
          = Some (VInt (committed_date oldest)))
  /\ (cinny_commits m = [] ->
      first_parent_log m <> [] ->
      added_in_catalog m
      = Raise (ValueError "invalid literal for int() with base 10: ''")
      /\ (forall app infos,
             app_dict_of_mirror set_order py_repr app infos m
             = Raise (ValueError "invalid literal for int() with base 10: ''"))
      /\ forall name infos rest rd s,
          cache (disk s) (lower name) = Some m ->
          build_items set_order py_repr ((name, infos) :: rest) rd s =
          build_items set_order py_repr rest rd
            (snd (error ("Processing " ++ lower name
                           ++ " failed: invalid literal for int() with base 10: ''")
                        s))).
Proof.
  split.
  - intros oldest newer Hrev.
    pose proof (added_in_catalog_oldest m Hrev) as Hadded.
    split; [exact Hadded|].
    intros app infos entry H. apply app_dict_anatomy in H.
    destruct H as (added & revision & c & manifest & id & url & state
                   & unmaintained & l & Ha & _ & _ & _ & _ & _ & _ & ->).
    rewrite Hadded in Ha. injection Ha as <-. reflexivity.
  - intros Hnone Hchain.
    assert (Hadded : added_in_catalog m
                     = Raise (ValueError "invalid literal for int() with base 10: ''")).
    { rewrite (added_in_catalog_none m Hnone).
      destruct (first_parent_log m); [contradiction | reflexivity]. }
    assert (Hbuilt : forall app infos,
               app_dict_of_mirror set_order py_repr app infos m
               = Raise (ValueError "invalid literal for int() with base 10: ''")).
    { intros app infos. unfold app_dict_of_mirror. rewrite Hadded. reflexivity. }
    split; [exact Hadded|]. split; [exact Hbuilt|].
    intros name infos rest rd s Hcache.
    rewrite (build_items_skip name infos rest rd s Hcache (Hbuilt _ _)).
    reflexivity.
Qed.

End Dates.

Lemma lastUpdate_is_committed_date_witness :
  exists entry revision c,
    app_dict_of_mirror Samples.one_order Samples.no_repr "b" Samples.infos_b
                       Samples.mirror_b = Ok entry
    /\ entry_revision entry = Some revision
    /\ commit Samples.mirror_b (str_of_value Samples.no_repr revision) = Ok c
    /\ dict_get entry "lastUpdate" = Some (VInt (committed_date c)).
Proof.
  destruct (app_dict_of_mirror Samples.one_order Samples.no_repr "b"
              Samples.infos_b Samples.mirror_b) as [entry|e] eqn:Eb;
    [|discriminate Eb].
  destruct (@lastUpdate_is_committed_date
              Samples.one_order Samples.no_repr "b" Samples.infos_b
              Samples.mirror_b entry Eb) as (revision & c & H).
  exists entry, revision, c. split; [reflexivity | exact H].
Defined.

(** C8 as stated fails: the resolved commit of the sample mirror was
    written at 1500 and committed at 2500, and the entry says 2500. *)
Lemma lastUpdate_is_not_the_authored_time :
  exists entry,
    app_dict_of_mirror Samples.one_order Samples.no_repr "b" Samples.infos_b
                       Samples.mirror_b = Ok entry
    /\ entry_revision entry = Some (VStr (hexsha Samples.commit_scripts))
    /\ commit Samples.mirror_b (hexsha Samples.commit_scripts)
       = Ok Samples.commit_scripts
    /\ authored_date Samples.commit_scripts = 1500
    /\ dict_get entry "lastUpdate" = Some (VInt 2500)
    /\ dict_get entry "lastUpdate"
       <> Some (VInt (authored_date Samples.commit_scripts)).
Proof.
  eexists. split; [vm_compute; reflexivity|].
  repeat split; discriminate.
Qed.

Lemma added_in_catalog_from_cinny_log_witness :
  added_in_catalog Samples.mirror_b = Ok 1000
  /\ added_in_catalog Samples.mirror_without_cinny
     = Raise (ValueError "invalid literal for int() with base 10: ''").
Proof.
  split.
  - exact (proj1 (proj1 (@added_in_catalog_from_cinny_log
                            Samples.one_order Samples.no_repr Samples.mirror_b)
                    Samples.commit_import [] eq_refl)).
  - exact (proj1 (proj2 (@added_in_catalog_from_cinny_log
                            Samples.one_order Samples.no_repr
                            Samples.mirror_without_cinny)
                    eq_refl ltac:(discriminate))).
Defined.

(* ================================================================== *)
(** ** C7: entries of packaging format below 2 *)
(* ================================================================== *)

Lemma dict_set_set (d : dict) (k : string) (v v' : value) :
  dict_set (dict_set d k v) k v' = dict_set d k v'.
Proof.
  induction d as [|[k0 v0] d IH]; simpl.
  - rewrite String.eqb_refl. reflexivity.
  - destruct (String.eqb k0 k) eqn:E; simpl; rewrite E; [reflexivity|].
    rewrite IH. reflexivity.
Qed.

Lemma dict_del_absent (d : dict) (k : string) :
  dict_mem d k = false -> dict_del d k = d.
Proof.
  unfold dict_mem. induction d as [|[k0 v0] d IH]; simpl; [reflexivity|].
  destruct (String.eqb k0 k); [discriminate|].
  intros H. rewrite IH by exact H. reflexivity.
Qed.

Lemma dict_get_del_same (d : dict) (k : string) :
  dict_get (dict_del d k) k = None.
Proof.
  induction d as [|[k0 v0] d IH]; simpl; [reflexivity|].
  destruct (String.eqb k0 k) eqn:E; [exact IH|].
  simpl. rewrite E. exact IH.
Qed.

Lemma dict_get_del_other (d : dict) (k k' : string) :
  k <> k' -> dict_get (dict_del d k) k' = dict_get d k'.
Proof.
  intros Hne. induction d as [|[k0 v0] d IH]; simpl; [reflexivity|].
  destruct (String.eqb_spec k0 k) as [->|Hk0]; simpl.
  - destruct (String.eqb_spec k k'); [contradiction | exact IH].
  - destruct (String.eqb k0 k'); [reflexivity | exact IH].
Qed.

(** Lines 215-219 on an entry whose manifest is a dict. *)
Lemma strip_manifest_dict (app : dict) (m : dict) :
  dict_get app "manifest" = Some (VDict m) ->
  strip_manifest app =
  Ok (dict_set app "manifest" (VDict (dict_del (dict_del m "install") "resources"))).
Proof.
  intros Hm.
  assert (Hone : forall k (a : dict) (d : dict),
             dict_get a "manifest" = Some (VDict d) ->
             del_manifest_key k a
             = Ok (dict_set a "manifest" (VDict (dict_del d k)))).
  { intros k a d Ha. unfold del_manifest_key. rewrite Ha. simpl.
    destruct (dict_mem d k) eqn:Emem; [reflexivity|].
    rewrite dict_del_absent by exact Emem.
    f_equal. clear - Ha. induction a as [|[k0 v0] a IH]; simpl in *.
    - discriminate.
    - destruct (String.eqb k0 "manifest").
      + injection Ha as ->. reflexivity.
      + rewrite <- IH by exact Ha. reflexivity. }
  unfold strip_manifest. rewrite (Hone "install" app m Hm). simpl.
  rewrite (Hone "resources" _ (dict_del m "install"))
    by apply dict_get_set_same.
  rewrite dict_set_set. reflexivity.
Qed.

Lemma Forall2_In_l {A B} (R : A -> B -> Prop) (l : list A) (l' : list B)
  (x : A) :
  Forall2 R l l' -> In x l -> exists y, In y l' /\ R x y.
Proof.
  intros H. induction H as [|a b l l' Hab _ IH]; simpl; [contradiction|].
  intros [<- | Hin]; [eauto|].
  destruct (IH Hin) as (y & Hy & Hxy). eauto.
Qed.

Section Legacy.

Variable float_of_text : string -> option pyfloat.
Variable convert : dict -> result dict.
Variable categories : value.
Variable antifeatures : value.

(** A run of [write_projections] that completes wrote the three files, in
    this order and with these contents. *)
Lemma write_projections_Ok (rd : list (value * dict)) (s s' : State) :
  write_projections float_of_text convert categories antifeatures rd s
  = (Ok tt, s') ->
  exists v1 upgraded stripped v2 docs,
    manifest_v1_entries float_of_text rd = Ok v1
    /\ map_entries (upgrade_manifest float_of_text convert) rd = Ok upgraded
    /\ map_entries strip_manifest upgraded = Ok stripped
    /\ Forall2 (fun ke ke' =>
                  fst ke' = fst ke
                  /\ exists h, snd ke' = dict_set (snd ke) "logo_hash" h)
               stripped v2
    /\ doc_entries rd = Ok docs
    /\ builds (log s') =
       (builds (log s)
          ++ [ (v2_path, mkDocument v1 categories (Some antifeatures));
               (v3_path, mkDocument v2 categories (Some antifeatures));
               (doc_path, mkDocument docs categories None) ])%list.
Proof.
  unfold write_projections. intros H.
  rewrite bind_run in H. unfold lift at 1 in H.
  destruct (manifest_v1_entries float_of_text rd) as [v1|] eqn:Ev1;
    [|discriminate].
  rewrite bind_run, write_json_run in H.
  destruct (sortable_keys (map fst (doc_apps (mkDocument v1 _ _))));
    [|discriminate].
  rewrite bind_run in H. unfold lift at 1 in H.
  destruct (map_entries (upgrade_manifest float_of_text convert) rd)
    as [upgraded|] eqn:Eup; [|discriminate].
  rewrite bind_run in H. unfold lift at 1 in H.
  destruct (map_entries strip_manifest upgraded) as [stripped|] eqn:Est;
    [|discriminate].
  rewrite bind_run in H.
  match type of H with
  | context [add_logo_hashes stripped ?s1] =>
      destruct (add_logo_hashes stripped s1) as [[v2|] s2] eqn:Elogo;
      [|discriminate];
      assert (Hb2 : log_inv (fun _ => True)
                      (eq (builds (log s1))) s2)
        by (eapply preserves_add_logo_hashes;
            [exact Elogo | split; [apply Forall_forall; auto | reflexivity]])
  end.
  destruct Hb2 as [_ Hb2]. simpl in Hb2.
  rewrite bind_run, write_json_run in H.
  destruct (sortable_keys (map fst (doc_apps (mkDocument v2 _ _))));
    [|discriminate].
  rewrite bind_run in H. unfold lift at 1 in H.
  destruct (doc_entries rd) as [docs|] eqn:Edocs; [|discriminate].
  rewrite write_json_run in H.
  destruct (sortable_keys (map fst (doc_apps (mkDocument docs _ _))));
    [|discriminate].
  injection H as <-.
  exists v1, upgraded, stripped, v2, docs.
  split; [reflexivity || assumption|].
  split; [reflexivity || assumption|].
  split; [reflexivity || assumption|].
  split; [eapply add_logo_hashes_Forall2; exact Elogo|].
  split; [reflexivity || assumption|].
  simpl. rewrite <- Hb2. simpl. rewrite <- !app_assoc. reflexivity.
Qed.

(** C7.  In a run of [write_projections] that completes, an entry of
    [result_dict] whose manifest declares a packaging format below 2 (1.5,
    say) is in the legacy document as it is, and in the current document
    under the same key with its manifest replaced by the converted one less
    its [install] and [resources] sections (and with a [logo_hash]). *)
Theorem legacy_entry_in_both_projections
  (rd : list (value * dict)) (s s' : State) (key : value) (entry m : dict)
  (pf : pyfloat) :
  write_projections float_of_text convert categories antifeatures rd s
  = (Ok tt, s') ->
  In (key, entry) rd ->
  dict_get entry "manifest" = Some (VDict m) ->
  packaging_format float_of_text entry = Ok pf ->
  below_2 pf = true ->
  exists legacy current others m2 logo_hash,
    builds (log s') =
    (builds (log s) ++ [(v2_path, legacy); (v3_path, current); others])%list
    /\ In (key, entry) (doc_apps legacy)
    /\ convert m = Ok m2
    /\ let manifest_v2 := dict_del (dict_del m2 "install") "resources" in
       In (key, dict_set (dict_set entry "manifest" (VDict manifest_v2))
                         "logo_hash" logo_hash)
          (doc_apps current)
       /\ dict_get manifest_v2 "install" = None
       /\ dict_get manifest_v2 "resources" = None.
Proof.
  intros Hrun Hin Hm Hpf Hbelow.
  apply write_projections_Ok in Hrun.
  destruct Hrun as (v1 & upgraded & stripped & v2 & docs
                    & Hv1 & Hup & Hst & Hlogo & _ & Hbuilds).
  destruct (Forall2_In_l (key, entry) (map_entries_Forall2 _ _ Hup) Hin)
    as ([k1 e1] & Hin1 & Hk1 & He1).
  simpl in Hk1, He1. subst k1.
  unfold upgrade_manifest in He1. rewrite Hpf in He1. simpl in He1.
  rewrite Hbelow in He1. unfold getitem in He1. rewrite Hm in He1.
  simpl in He1.
  destruct (convert m) as [m2|] eqn:Econv; [|discriminate].
  simpl in He1. injection He1 as <-.
  destruct (Forall2_In_l _ (map_entries_Forall2 _ _ Hst) Hin1)
    as ([k2 e2] & Hin2 & Hk2 & He2).
  simpl in Hk2, He2. subst k2.
  rewrite (strip_manifest_dict _ (dict_get_set_same _ _ _)) in He2.
  injection He2 as <-. rewrite dict_set_set in Hin2.
  destruct (Forall2_In_l _ Hlogo Hin2) as ([k3 e3] & Hin3 & Hk3 & h & He3).
  simpl in Hk3, He3. subst k3 e3.
  exists (mkDocument v1 categories (Some antifeatures)),
    (mkDocument v2 categories (Some antifeatures)),
    (doc_path, mkDocument docs categories None), m2, h.
  split; [exact Hbuilds|]. split.
  - simpl. eapply manifest_v1_entries_In; [exact Hv1|]. split; [exact Hin|].
    exists pf. auto.
  - split; [reflexivity|]. simpl. split; [exact Hin3|]. split.
    + rewrite dict_get_del_other by discriminate. apply dict_get_del_same.
    + apply dict_get_del_same.
Qed.

End Legacy.

Lemma legacy_entry_in_both_projections_witness :
  exists legacy current others m2 logo_hash,
    builds (log (snd Samples.projections_abc))
    = [(v2_path, legacy); (v3_path, current); others]
    /\ In (VStr "b", Samples.entry_b) (doc_apps legacy)
    /\ Samples.convert_keep Samples.manifest_b = Ok m2
    /\ let manifest_v2 := dict_del (dict_del m2 "install") "resources" in
       In (VStr "b",
           dict_set (dict_set Samples.entry_b "manifest" (VDict manifest_v2))
                    "logo_hash" logo_hash)
          (doc_apps current)
       /\ dict_get manifest_v2 "install" = None
       /\ dict_get manifest_v2 "resources" = None.
Proof.
  refine (@legacy_entry_in_both_projections
            Samples.no_float Samples.convert_keep (VList []) (VList [])
            Samples.built_abc
            (Samples.start (Samples.disk_abc (25 * Samples.hour)%Q))
            (snd Samples.projections_abc)
            (VStr "b") Samples.entry_b Samples.manifest_b
            (Finite 1.5%Q) _ _ _ _ _).
  - reflexivity.
  - right; left; reflexivity.
  - reflexivity.
  - reflexivity.
  - reflexivity.
Defined.

(* ================================================================== *)
(** ** C6: two runs over the same inputs *)
(* ================================================================== *)

(** C6, at an input where the program breaks it.  A package that lists two
    antifeatures is processed by two processes that differ in nothing but
    the order in which they iterate over a set ([list(set(...))]): both
    runs complete, and the three files they write differ, the antifeatures
    of the entry being in one order in the first run and in the other order
    in the second. *)
Lemma set_order_changes_the_documents :
  fst (Samples.run_two_antifeatures Samples.one_order) = Ok tt
  /\ fst (Samples.run_two_antifeatures Samples.other_order) = Ok tt
  /\ Samples.written_antifeatures (VStr "c")
       (snd (Samples.run_two_antifeatures Samples.one_order))
     = [ (v2_path, Some (VList [VStr "deprecated-software";
                                VStr "package-not-maintained"]));
         (v3_path, Some (VList [VStr "deprecated-software";
                                VStr "package-not-maintained"]));
         (doc_path, Some (VList [VStr "deprecated-software";
                                 VStr "package-not-maintained"])) ]
  /\ Samples.written_antifeatures (VStr "c")
       (snd (Samples.run_two_antifeatures Samples.other_order))
     = [ (v2_path, Some (VList [VStr "package-not-maintained";
                                VStr "deprecated-software"]));
         (v3_path, Some (VList [VStr "package-not-maintained";
                                VStr "deprecated-software"]));
         (doc_path, Some (VList [VStr "package-not-maintained";
                                 VStr "deprecated-software"])) ]
  /\ Forall2 (fun one other => fst one = fst other /\ snd one <> snd other)
       (Samples.written_texts
          (snd (Samples.run_two_antifeatures Samples.one_order)))
       (Samples.written_texts
          (snd (Samples.run_two_antifeatures Samples.other_order))).
Proof.
  split; [reflexivity|]. split; [reflexivity|].
  split; [vm_compute; reflexivity|]. split; [vm_compute; reflexivity|].
  vm_compute.
  repeat (constructor; [split; [reflexivity | discriminate]|]).
  constructor.
Qed.
